(** * VRRVRR: a haptic metronome for the Raspberry Pi Pico

    A shallow embedding of [src/main.c] and [src/config.h]: the globals of
    the firmware become one record, every C function becomes a state
    transformer that may fail (division by zero and out-of-bounds array
    accesses are undefined behaviour in C and are modelled as [None]), and
    the unsigned machine integers are integers of [Z] with their wrap-around
    written out.  The hardware clock and the level of the vibration switch
    are inputs held in the state; LED and motor commands, the flash program
    and the blocking sleep are recorded in a trace.  Pin and PWM bring-up,
    the battery check, the dormant-mode check and the unused [toggle_pause]
    are left out. *)

From Stdlib Require Import ZArith List Bool Lia.
Import ListNotations.
Open Scope Z_scope.

(** ** Machine integers *)

Definition u8 (x : Z) : Z := x mod 2 ^ 8.
Definition u16 (x : Z) : Z := x mod 2 ^ 16.
Definition u64 (x : Z) : Z := x mod 2 ^ 64.

(** Conversion of a 64-bit pattern to [int64_t] (two's complement). *)
Definition s64 (x : Z) : Z :=
  let y := x mod 2 ^ 64 in if y <? 2 ^ 63 then y else y - 2 ^ 64.

(** ** config.h *)

Inductive color := WHITE | PURPLE | RED | GREEN.

Module Config.
Definition INPUT_TIMEOUT_MS : Z := 2000.
Definition BLINK_DURATION_MS : Z := 100.
Definition VIBRATION_DURATION_MS : Z := 100.
Definition NOTIF_DURATION_MS : Z := 500.
Definition DEFAULT_TEMPO_PRESETS : list Z := [60; 90; 60; 150].
Definition DEFAULT_SUBDIV_PRESETS : list Z := [1; 1; 2; 1].
Definition DEFAULT_ACCENT_PRESETS : list Z := [0; 0; 1; 0].
Definition MAGIC_NUMBER : list Z := [0x42; 0x50; 0x4D].
Definition MAGIC_NUMBER_LENGTH : Z := 3.
(** From the Pico SDK ([hardware/flash.h]): one flash page is 256 bytes. *)
Definition FLASH_PAGE_SIZE : Z := 256.
End Config.
Import Config.

(** ** Arrays and loops *)

(** [a[i]] for a C array held as a list; an index outside the array is
    undefined behaviour. *)
Definition arr_get (a : list Z) (i : Z) : option Z :=
  if (0 <=? i) && (i <? Z.of_nat (length a))
  then nth_error a (Z.to_nat i) else None.

Fixpoint list_upd (a : list Z) (n : nat) (v : Z) : list Z :=
  match a, n with
  | [], _ => []
  | _ :: a', O => v :: a'
  | x :: a', S n' => x :: list_upd a' n' v
  end.

(** [a[i] = v]. *)
Definition arr_set (a : list Z) (i : Z) (v : Z) : option (list Z) :=
  if (0 <=? i) && (i <? Z.of_nat (length a))
  then Some (list_upd a (Z.to_nat i) v) else None.

(** The indices [0, 1, ..., n-1] of a [for(uint8_t i=0; i<n; i++)] loop. *)
Definition upto (n : nat) : list Z := map Z.of_nat (seq 0 n).

(** A byte of the memory-mapped flash page.  The page is held as a list;
    bytes past its end read as erased flash ([0xFF]). *)
Definition flash_byte (page : list Z) (i : Z) : Z :=
  nth (Z.to_nat i) page 0xFF.

(** ** Global state *)

(** The callback of the [tempo_change] repeating timer. *)
Inductive tempo_step := CbIncreaseTempo | CbDecreaseTempo.

(** What the firmware sends to the excluded output and storage drivers. *)
Inductive output :=
| OutBlink (ms : Z) (c : color)
| OutVibrate (ms : Z) (is_first : bool)
| OutFlashProgram (page : list Z)
| OutSleep (ms : Z).

Record state := mkState {
  tempo : Z;                        (* uint8_t *)
  subdiv : Z;                       (* uint8_t *)
  accent : bool;
  tempo_prompt : Z;                 (* uint16_t *)
  num_taps : Z;                     (* uint8_t *)
  ticks : Z;                        (* uint8_t *)
  paused : bool;
  recalc_interval : bool;
  last_press : Z;                   (* uint64_t *)
  long_pressed_release_lock : bool;
  tempo_presets : list Z;           (* uint8_t [4] *)
  subdiv_presets : list Z;          (* uint8_t [4] *)
  accent_presets : list Z;          (* uint8_t [4] *)
  tap_interval_avg : Z;             (* static uint64_t in tap() *)
  last_tap : Z;                     (* static uint64_t in tap() *)
  metronome : option Z;             (* armed repeating timer: its delay_us *)
  tempo_change : option tempo_step; (* armed 50 ms repeating timer *)
  type_timeout_alarm : option Z;    (* armed alarm: its delay in ms *)
  tap_timeout_alarm : option Z;
  flash : list Z;                   (* the page at FLASH_TARGET_OFFSET *)
  time_us_64 : Z;                   (* hardware clock, read by time_us_64() *)
  vibr_switch_pin : bool;           (* gpio_get(VIBR_SWITCH_PIN) *)
  trace : list output               (* outputs so far, oldest first *)
}.

Definition with_tempo (v : Z) (s : state) : state :=
  mkState v (subdiv s) (accent s) (tempo_prompt s) (num_taps s) (ticks s)
    (paused s) (recalc_interval s) (last_press s)
    (long_pressed_release_lock s) (tempo_presets s) (subdiv_presets s)
    (accent_presets s) (tap_interval_avg s) (last_tap s) (metronome s)
    (tempo_change s) (type_timeout_alarm s) (tap_timeout_alarm s) (flash s)
    (time_us_64 s) (vibr_switch_pin s) (trace s).

Definition with_subdiv (v : Z) (s : state) : state :=
  mkState (tempo s) v (accent s) (tempo_prompt s) (num_taps s) (ticks s)
    (paused s) (recalc_interval s) (last_press s)
    (long_pressed_release_lock s) (tempo_presets s) (subdiv_presets s)
    (accent_presets s) (tap_interval_avg s) (last_tap s) (metronome s)
    (tempo_change s) (type_timeout_alarm s) (tap_timeout_alarm s) (flash s)
    (time_us_64 s) (vibr_switch_pin s) (trace s).

Definition with_accent (v : bool) (s : state) : state :=
  mkState (tempo s) (subdiv s) v (tempo_prompt s) (num_taps s) (ticks s)
    (paused s) (recalc_interval s) (last_press s)
    (long_pressed_release_lock s) (tempo_presets s) (subdiv_presets s)
    (accent_presets s) (tap_interval_avg s) (last_tap s) (metronome s)
    (tempo_change s) (type_timeout_alarm s) (tap_timeout_alarm s) (flash s)
    (time_us_64 s) (vibr_switch_pin s) (trace s).

Definition with_tempo_prompt (v : Z) (s : state) : state :=
  mkState (tempo s) (subdiv s) (accent s) v (num_taps s) (ticks s) (paused s)
    (recalc_interval s) (last_press s) (long_pressed_release_lock s)
    (tempo_presets s) (subdiv_presets s) (accent_presets s)
    (tap_interval_avg s) (last_tap s) (metronome s) (tempo_change s)
    (type_timeout_alarm s) (tap_timeout_alarm s) (flash s) (time_us_64 s)
    (vibr_switch_pin s) (trace s).

Definition with_num_taps (v : Z) (s : state) : state :=
  mkState (tempo s) (subdiv s) (accent s) (tempo_prompt s) v (ticks s)
    (paused s) (recalc_interval s) (last_press s)
    (long_pressed_release_lock s) (tempo_presets s) (subdiv_presets s)
    (accent_presets s) (tap_interval_avg s) (last_tap s) (metronome s)
    (tempo_change s) (type_timeout_alarm s) (tap_timeout_alarm s) (flash s)
    (time_us_64 s) (vibr_switch_pin s) (trace s).

Definition with_ticks (v : Z) (s : state) : state :=
  mkState (tempo s) (subdiv s) (accent s) (tempo_prompt s) (num_taps s) v
    (paused s) (recalc_interval s) (last_press s)
    (long_pressed_release_lock s) (tempo_presets s) (subdiv_presets s)
    (accent_presets s) (tap_interval_avg s) (last_tap s) (metronome s)
    (tempo_change s) (type_timeout_alarm s) (tap_timeout_alarm s) (flash s)
    (time_us_64 s) (vibr_switch_pin s) (trace s).

Definition with_paused (v : bool) (s : state) : state :=
  mkState (tempo s) (subdiv s) (accent s) (tempo_prompt s) (num_taps s)
    (ticks s) v (recalc_interval s) (last_press s)
    (long_pressed_release_lock s) (tempo_presets s) (subdiv_presets s)
    (accent_presets s) (tap_interval_avg s) (last_tap s) (metronome s)
    (tempo_change s) (type_timeout_alarm s) (tap_timeout_alarm s) (flash s)
    (time_us_64 s) (vibr_switch_pin s) (trace s).

Definition with_recalc_interval (v : bool) (s : state) : state :=
  mkState (tempo s) (subdiv s) (accent s) (tempo_prompt s) (num_taps s)
    (ticks s) (paused s) v (last_press s) (long_pressed_release_lock s)
    (tempo_presets s) (subdiv_presets s) (accent_presets s)
    (tap_interval_avg s) (last_tap s) (metronome s) (tempo_change s)
    (type_timeout_alarm s) (tap_timeout_alarm s) (flash s) (time_us_64 s)
    (vibr_switch_pin s) (trace s).

Definition with_last_press (v : Z) (s : state) : state :=
  mkState (tempo s) (subdiv s) (accent s) (tempo_prompt s) (num_taps s)
    (ticks s) (paused s) (recalc_interval s) v (long_pressed_release_lock s)
    (tempo_presets s) (subdiv_presets s) (accent_presets s)
    (tap_interval_avg s) (last_tap s) (metronome s) (tempo_change s)
    (type_timeout_alarm s) (tap_timeout_alarm s) (flash s) (time_us_64 s)
    (vibr_switch_pin s) (trace s).

Definition with_long_pressed_release_lock (v : bool) (s : state) : state :=
  mkState (tempo s) (subdiv s) (accent s) (tempo_prompt s) (num_taps s)
    (ticks s) (paused s) (recalc_interval s) (last_press s) v
    (tempo_presets s) (subdiv_presets s) (accent_presets s)
    (tap_interval_avg s) (last_tap s) (metronome s) (tempo_change s)
    (type_timeout_alarm s) (tap_timeout_alarm s) (flash s) (time_us_64 s)
    (vibr_switch_pin s) (trace s).

Definition with_tempo_presets (v : list Z) (s : state) : state :=
  mkState (tempo s) (subdiv s) (accent s) (tempo_prompt s) (num_taps s)
    (ticks s) (paused s) (recalc_interval s) (last_press s)
    (long_pressed_release_lock s) v (subdiv_presets s) (accent_presets s)
    (tap_interval_avg s) (last_tap s) (metronome s) (tempo_change s)
    (type_timeout_alarm s) (tap_timeout_alarm s) (flash s) (time_us_64 s)
    (vibr_switch_pin s) (trace s).

Definition with_subdiv_presets (v : list Z) (s : state) : state :=
  mkState (tempo s) (subdiv s) (accent s) (tempo_prompt s) (num_taps s)
    (ticks s) (paused s) (recalc_interval s) (last_press s)
    (long_pressed_release_lock s) (tempo_presets s) v (accent_presets s)
    (tap_interval_avg s) (last_tap s) (metronome s) (tempo_change s)
    (type_timeout_alarm s) (tap_timeout_alarm s) (flash s) (time_us_64 s)
    (vibr_switch_pin s) (trace s).

Definition with_accent_presets (v : list Z) (s : state) : state :=
  mkState (tempo s) (subdiv s) (accent s) (tempo_prompt s) (num_taps s)
    (ticks s) (paused s) (recalc_interval s) (last_press s)
    (long_pressed_release_lock s) (tempo_presets s) (subdiv_presets s) v
    (tap_interval_avg s) (last_tap s) (metronome s) (tempo_change s)
    (type_timeout_alarm s) (tap_timeout_alarm s) (flash s) (time_us_64 s)
    (vibr_switch_pin s) (trace s).

Definition with_tap_interval_avg (v : Z) (s : state) : state :=
  mkState (tempo s) (subdiv s) (accent s) (tempo_prompt s) (num_taps s)
    (ticks s) (paused s) (recalc_interval s) (last_press s)
    (long_pressed_release_lock s) (tempo_presets s) (subdiv_presets s)
    (accent_presets s) v (last_tap s) (metronome s) (tempo_change s)
    (type_timeout_alarm s) (tap_timeout_alarm s) (flash s) (time_us_64 s)
    (vibr_switch_pin s) (trace s).

Definition with_last_tap (v : Z) (s : state) : state :=
  mkState (tempo s) (subdiv s) (accent s) (tempo_prompt s) (num_taps s)
    (ticks s) (paused s) (recalc_interval s) (last_press s)
    (long_pressed_release_lock s) (tempo_presets s) (subdiv_presets s)
    (accent_presets s) (tap_interval_avg s) v (metronome s) (tempo_change s)
    (type_timeout_alarm s) (tap_timeout_alarm s) (flash s) (time_us_64 s)
    (vibr_switch_pin s) (trace s).

Definition with_metronome (v : option Z) (s : state) : state :=
  mkState (tempo s) (subdiv s) (accent s) (tempo_prompt s) (num_taps s)
    (ticks s) (paused s) (recalc_interval s) (last_press s)
    (long_pressed_release_lock s) (tempo_presets s) (subdiv_presets s)
    (accent_presets s) (tap_interval_avg s) (last_tap s) v (tempo_change s)
    (type_timeout_alarm s) (tap_timeout_alarm s) (flash s) (time_us_64 s)
    (vibr_switch_pin s) (trace s).

Definition with_tempo_change (v : option tempo_step) (s : state) : state :=
  mkState (tempo s) (subdiv s) (accent s) (tempo_prompt s) (num_taps s)
    (ticks s) (paused s) (recalc_interval s) (last_press s)
    (long_pressed_release_lock s) (tempo_presets s) (subdiv_presets s)
    (accent_presets s) (tap_interval_avg s) (last_tap s) (metronome s) v
    (type_timeout_alarm s) (tap_timeout_alarm s) (flash s) (time_us_64 s)
    (vibr_switch_pin s) (trace s).

Definition with_type_timeout_alarm (v : option Z) (s : state) : state :=
  mkState (tempo s) (subdiv s) (accent s) (tempo_prompt s) (num_taps s)
    (ticks s) (paused s) (recalc_interval s) (last_press s)
    (long_pressed_release_lock s) (tempo_presets s) (subdiv_presets s)
    (accent_presets s) (tap_interval_avg s) (last_tap s) (metronome s)
    (tempo_change s) v (tap_timeout_alarm s) (flash s) (time_us_64 s)
    (vibr_switch_pin s) (trace s).

Definition with_tap_timeout_alarm (v : option Z) (s : state) : state :=
  mkState (tempo s) (subdiv s) (accent s) (tempo_prompt s) (num_taps s)
    (ticks s) (paused s) (recalc_interval s) (last_press s)
    (long_pressed_release_lock s) (tempo_presets s) (subdiv_presets s)
    (accent_presets s) (tap_interval_avg s) (last_tap s) (metronome s)
    (tempo_change s) (type_timeout_alarm s) v (flash s) (time_us_64 s)
    (vibr_switch_pin s) (trace s).

Definition with_flash (v : list Z) (s : state) : state :=
  mkState (tempo s) (subdiv s) (accent s) (tempo_prompt s) (num_taps s)
    (ticks s) (paused s) (recalc_interval s) (last_press s)
    (long_pressed_release_lock s) (tempo_presets s) (subdiv_presets s)
    (accent_presets s) (tap_interval_avg s) (last_tap s) (metronome s)
    (tempo_change s) (type_timeout_alarm s) (tap_timeout_alarm s) v
    (time_us_64 s) (vibr_switch_pin s) (trace s).

Definition with_time_us_64 (v : Z) (s : state) : state :=
  mkState (tempo s) (subdiv s) (accent s) (tempo_prompt s) (num_taps s)
    (ticks s) (paused s) (recalc_interval s) (last_press s)
    (long_pressed_release_lock s) (tempo_presets s) (subdiv_presets s)
    (accent_presets s) (tap_interval_avg s) (last_tap s) (metronome s)
    (tempo_change s) (type_timeout_alarm s) (tap_timeout_alarm s) (flash s) v
    (vibr_switch_pin s) (trace s).

Definition with_vibr_switch_pin (v : bool) (s : state) : state :=
  mkState (tempo s) (subdiv s) (accent s) (tempo_prompt s) (num_taps s)
    (ticks s) (paused s) (recalc_interval s) (last_press s)
    (long_pressed_release_lock s) (tempo_presets s) (subdiv_presets s)
    (accent_presets s) (tap_interval_avg s) (last_tap s) (metronome s)
    (tempo_change s) (type_timeout_alarm s) (tap_timeout_alarm s) (flash s)
    (time_us_64 s) v (trace s).

Definition with_trace (v : list output) (s : state) : state :=
  mkState (tempo s) (subdiv s) (accent s) (tempo_prompt s) (num_taps s)
    (ticks s) (paused s) (recalc_interval s) (last_press s)
    (long_pressed_release_lock s) (tempo_presets s) (subdiv_presets s)
    (accent_presets s) (tap_interval_avg s) (last_tap s) (metronome s)
    (tempo_change s) (type_timeout_alarm s) (tap_timeout_alarm s) (flash s)
    (time_us_64 s) (vibr_switch_pin s) v.

(** ** Procedures: state transformers that may hit undefined behaviour *)

Definition proc := state -> option state.

Definition skip : proc := fun s => Some s.

Definition andthen (p q : proc) : proc :=
  fun s => match p s with Some s' => q s' | None => None end.

Notation "p ;; q" := (andthen p q) (at level 61, right associativity).

Definition modify (f : state -> state) : proc := fun s => Some (f s).

Definition when (b : bool) (p : proc) : proc := if b then p else skip.

Definition emit (o : output) : proc :=
  modify (fun s => with_trace (trace s ++ [o]) s).

Fixpoint for_each (l : list Z) (body : Z -> proc) : proc :=
  match l with
  | [] => skip
  | i :: l' => body i ;; for_each l' body
  end.

Definition obind {A B} (x : option A) (k : A -> option B) : option B :=
  match x with Some a => k a | None => None end.

Notation "'let?' x ':=' e 'in' k" := (obind e (fun x => k))
  (at level 10, x name, e at level 100, k at level 200).

(** The state the C runtime and the first lines of [main] leave behind,
    before [read_flash_presets] runs: zero-initialised globals, the
    initialisers of the declarations, no timer armed. *)
Definition boot (page : list Z) (now : Z) (sw : bool) : state :=
  mkState 0 1 true 0 0 0 true false 0 false
    DEFAULT_TEMPO_PRESETS DEFAULT_SUBDIV_PRESETS DEFAULT_ACCENT_PRESETS
    0 0 None None None None page now sw [].

(** ** Flash functions *)

(** [uint8_t flash_buffer[FLASH_PAGE_SIZE] = MAGIC_NUMBER;] the signature
    followed by zeros. *)
Definition flash_buffer_init : list Z :=
  MAGIC_NUMBER ++ repeat 0 (Z.to_nat FLASH_PAGE_SIZE - length MAGIC_NUMBER).

Definition fill_flash_buffer (s : state) : option (list Z) :=
  fold_left
    (fun (acc : option (list Z)) (i : Z) =>
       let? buf := acc in
       let? t := arr_get (tempo_presets s) i in
       let? buf := arr_set buf (MAGIC_NUMBER_LENGTH + i) t in
       let? d := arr_get (subdiv_presets s) i in
       let? buf := arr_set buf (MAGIC_NUMBER_LENGTH + i + 4) d in
       let? a := arr_get (accent_presets s) i in
       arr_set buf (MAGIC_NUMBER_LENGTH + i + 8) a)
    (upto 4) (Some flash_buffer_init).

(** The erase and program of the page, interrupts masked, is one atomic
    step that replaces the page. *)
Definition write_flash_presets : proc :=
  fun s =>
    let? flash_buffer := fill_flash_buffer s in
    (modify (with_flash flash_buffer) ;;
     emit (OutFlashProgram flash_buffer)) s.

(** The validation loops of [read_flash_presets]: the final value of the
    local [invalid_data]. *)
Definition invalid_data (stored_presets : Z -> Z) : bool :=
  let magic := MAGIC_NUMBER in
  let invalid := false in
  let invalid :=
    fold_left
      (fun (invalid : bool) (i : Z) =>
         if negb (stored_presets i =? nth (Z.to_nat i) magic 0)
         then true else invalid)
      (upto (Z.to_nat MAGIC_NUMBER_LENGTH)) invalid in
  fold_left
    (fun (invalid : bool) (i : Z) =>
       (* Validate tempi *)
       let invalid :=
         if (stored_presets (MAGIC_NUMBER_LENGTH + i) <? 1)
            || (stored_presets (MAGIC_NUMBER_LENGTH + i) >? 255)
         then true else invalid in
       (* Validate subdivisions *)
       let invalid :=
         if (stored_presets (MAGIC_NUMBER_LENGTH + i + 4) <? 1)
            || (stored_presets (MAGIC_NUMBER_LENGTH + i + 4) >? 10)
         then true else invalid in
       (* Validate accents *)
       if stored_presets (MAGIC_NUMBER_LENGTH + i + 8) >? 1
       then true else invalid)
    (upto 4) invalid.

Definition read_flash_presets : proc :=
  fun s =>
    let stored_presets := flash_byte (flash s) in
    if negb (invalid_data stored_presets) then
      for_each (upto 4)
        (fun i s =>
           let? tp := arr_set (tempo_presets s) i
                        (stored_presets (MAGIC_NUMBER_LENGTH + i)) in
           let? sp := arr_set (subdiv_presets s) i
                        (stored_presets (MAGIC_NUMBER_LENGTH + i + 4)) in
           let? ap := arr_set (accent_presets s) i
                        (stored_presets (MAGIC_NUMBER_LENGTH + i + 8)) in
           Some (with_accent_presets ap
                   (with_subdiv_presets sp (with_tempo_presets tp s))))
        s
    else Some s.

(** ** Supporting functions *)

(** [t] is a [uint8_t]; dividing by zero is undefined behaviour. *)
Definition bpm_to_interval (t : Z) : option Z :=
  if t =? 0 then None else Some (u64 ((60 * 1000 * 1000) / t)).

(** [interval] is a [uint64_t]; the quotient is cut to [uint8_t]. *)
Definition interval_to_bpm (interval : Z) : option Z :=
  if interval =? 0 then None else Some (u8 ((60 * 1000 * 1000) / interval)).

(** ** LED and motor *)

Definition blink (ms : Z) (c : color) : proc := emit (OutBlink ms c).

Definition vibrate (ms : Z) (is_first : bool) : proc :=
  emit (OutVibrate ms is_first).

(** ** Alarm handlers *)

Definition input_timeout : proc := modify (with_tempo_prompt 0).

Definition tap_timeout : proc := modify (with_num_taps 0).

(** ** Metronome functions *)

Definition stop : proc :=
  modify (with_metronome None) ;; modify (with_paused true).

Definition set_tempo (t : Z) : proc :=
  fun s =>
    if t <? 1 then Some s else
    (modify (with_tempo t) ;;
     modify (with_ticks 0) ;;
     stop ;;
     (fun s =>
        let? interval := bpm_to_interval t in
        (* Apply subdivisions *)
        let? interval :=
          (if subdiv s =? 0 then None else Some (interval / subdiv s)) in
        (* interval *= -1, in uint64_t *)
        let interval := u64 (interval * u64 (-1)) in
        Some (with_metronome (Some (s64 interval)) s)) ;;
     modify (with_paused false)) s.

Definition tick : proc :=
  fun s =>
    let is_first := accent s && (ticks s =? 0) in
    ((if is_first
      then blink BLINK_DURATION_MS PURPLE
      else blink BLINK_DURATION_MS WHITE) ;;
     when (negb (vibr_switch_pin s)) (vibrate VIBRATION_DURATION_MS is_first) ;;
     modify (fun s => with_ticks (u8 (ticks s + 1)) s) ;;
     (fun s => when (ticks s >=? subdiv s) (modify (with_ticks 0)) s) ;;
     (fun s =>
        when (recalc_interval s)
          (stop ;;
           (fun s => when (tempo s >? 0) (set_tempo (tempo s)) s) ;;
           modify (with_recalc_interval false)) s)) s.

Definition increase_tempo : proc :=
  (fun s => when (tempo s >? 0) (modify (with_tempo (tempo s - 1))) s) ;;
  modify (with_recalc_interval true).

Definition decrease_tempo : proc :=
  (fun s => when (tempo s <? 256) (modify (with_tempo (u8 (tempo s + 1)))) s) ;;
  modify (with_recalc_interval true).

Definition increase_tempo_hold : proc :=
  modify (with_tempo_change None) ;;
  modify (with_tempo_change (Some CbIncreaseTempo)) ;;
  modify (with_long_pressed_release_lock false).

Definition decrease_tempo_hold : proc :=
  modify (with_tempo_change None) ;;
  modify (with_tempo_change (Some CbDecreaseTempo)) ;;
  modify (with_long_pressed_release_lock false).

Definition set_measure (m : Z) : proc :=
  fun s =>
    if (m <? 1) || (m >? 9) then Some s else
    (modify (with_subdiv m) ;;
     stop ;;
     (fun s => when (tempo s >? 0) (set_tempo (tempo s)) s)) s.

Definition toggle_accent : proc :=
  modify (fun s => with_accent (negb (accent s)) s).

Definition type_tempo (n : Z) : proc :=
  stop ;;
  modify (with_type_timeout_alarm (Some INPUT_TIMEOUT_MS)) ;;
  modify (fun s => with_tempo_prompt (u16 (tempo_prompt s * 10)) s) ;;
  modify (fun s => with_tempo_prompt (u16 (tempo_prompt s + n)) s) ;;
  (fun s =>
     when ((tempo_prompt s >? 0) && (tempo_prompt s <? 256))
       (set_tempo (u8 (tempo_prompt s))) s).

Definition tap : proc :=
  stop ;;
  modify (with_tap_timeout_alarm (Some INPUT_TIMEOUT_MS)) ;;
  (fun s =>
     let now := time_us_64 s in
     (modify (fun s => with_num_taps (u8 (num_taps s + 1)) s) ;;
      (fun s =>
         when (num_taps s >? 1)
           (modify (fun s =>
                      with_tap_interval_avg
                        (u64 (tap_interval_avg s + u64 (now - last_tap s)) / 2)
                        s) ;;
            (fun s =>
               let? t := interval_to_bpm (tap_interval_avg s) in
               set_tempo t s)) s) ;;
      modify (with_last_tap now)) s).

Definition save_preset (c : Z) : proc :=
  fun s =>
    if tempo s =? 0 then Some s else
    ((fun s =>
        let? tp := arr_set (tempo_presets s) c (tempo s) in
        Some (with_tempo_presets tp s)) ;;
     (fun s =>
        let? sp := arr_set (subdiv_presets s) c (subdiv s) in
        Some (with_subdiv_presets sp s)) ;;
     (fun s =>
        let? ap := arr_set (accent_presets s) c (Z.b2z (accent s)) in
        Some (with_accent_presets ap s)) ;;
     stop ;;
     blink NOTIF_DURATION_MS GREEN ;;
     write_flash_presets ;;
     emit (OutSleep NOTIF_DURATION_MS) ;;
     (fun s => set_tempo (tempo s) s)) s.

Definition apply_preset (c : Z) : proc :=
  (fun s =>
     let? t := arr_get (tempo_presets s) c in Some (with_tempo t s)) ;;
  (fun s =>
     let? a := arr_get (accent_presets s) c in
     Some (with_accent (negb (a =? 0)) s)) ;;
  (fun s => let? m := arr_get (subdiv_presets s) c in set_measure m s).

(** ** Key handlers *)

Definition key_pressed (key : Z) : proc :=
  modify (fun s => with_last_press (time_us_64 s) s) ;;
  match key with
  | 12 => decrease_tempo  (* Asterisk *)
  | 14 => increase_tempo  (* Little gate symbol *)
  | _ => skip
  end.

Definition key_released (key : Z) : proc :=
  fun s =>
    if long_pressed_release_lock s
    then Some (with_long_pressed_release_lock false s)
    else
      (match key with
       | 0 => type_tempo 1
       | 1 => type_tempo 2
       | 2 => type_tempo 3
       | 4 => type_tempo 4
       | 5 => type_tempo 5
       | 6 => type_tempo 6
       | 8 => type_tempo 7
       | 9 => type_tempo 8
       | 10 => type_tempo 9
       | 13 =>
           fun s =>
             if tempo_prompt s >? 0
             then type_tempo 0 s  (* already typing: a '0' digit *)
             else tap s           (* not typing: tap tempo *)
       | 3 => apply_preset 0   (* A *)
       | 7 => apply_preset 1   (* B *)
       | 11 => apply_preset 2  (* C *)
       | 15 => apply_preset 3  (* D *)
       | 12 | 14 => modify (with_tempo_change None)
       | _ => skip
       end ;;
       blink BLINK_DURATION_MS RED) s.

Definition key_long_pressed (key : Z) : proc :=
  modify (with_long_pressed_release_lock true) ;;
  match key with
  | 0 => set_measure 1
  | 1 => set_measure 2
  | 2 => set_measure 3
  | 4 => set_measure 4
  | 5 => set_measure 5
  | 6 => set_measure 6
  | 8 => set_measure 7
  | 9 => set_measure 8
  | 10 => set_measure 9
  | 13 => toggle_accent
  | 3 => save_preset 0   (* A *)
  | 7 => save_preset 1   (* B *)
  | 11 => save_preset 2  (* C *)
  | 15 => save_preset 3  (* D *)
  | 12 => decrease_tempo_hold  (* Asterisk *)
  | 14 => increase_tempo_hold  (* Little gate symbol *)
  | _ => skip
  end.

(** The part of [main] that touches the modelled state. *)
Definition main_init (page : list Z) (now : Z) (sw : bool) : option state :=
  read_flash_presets (boot page now sw).

(** ** Notions used in the statements *)

(** The hardware clock showing [t] microseconds. *)
Definition at_time (t : Z) : proc := modify (with_time_us_64 t).

(** Digits fed one after the other to [type_tempo]. *)
Definition type_digits (ds : list Z) : proc := for_each ds type_tempo.

(** [n] successive calls of a callback. *)
Fixpoint repeat_proc (n : nat) (p : proc) : proc :=
  match n with
  | O => skip
  | S n' => p ;; repeat_proc n' p
  end.

(** The decimal number a digit sequence spells. *)
Definition decimal_value (ds : list Z) : Z :=
  fold_left (fun acc d => acc * 10 + d) ds 0.

(** What one tick sends out: a blink, purple on the accented tick, and a
    vibration unless the switch pin reads high. *)
Definition tick_outputs (is_first sw : bool) : list output :=
  OutBlink BLINK_DURATION_MS (if is_first then PURPLE else WHITE)
  :: (if sw then [] else [OutVibrate VIBRATION_DURATION_MS is_first]).

(** Number of page programs in a trace. *)
Definition flash_writes (tr : list output) : nat :=
  length
    (filter
       (fun o => match o with OutFlashProgram _ => true | _ => false end)
       tr).

(** The ranges of the live values and the sizes of the preset arrays. *)
Record well_formed (s : state) : Prop := {
  wf_tempo : 0 <= tempo s <= 255;
  wf_subdiv : 1 <= subdiv s <= 9;
  wf_tempo_presets : length (tempo_presets s) = 4%nat;
  wf_subdiv_presets : length (subdiv_presets s) = 4%nat;
  wf_accent_presets : length (accent_presets s) = 4%nat
}.

(** A long-press action that runs and leaves the release lock alone. *)
Definition keeps_lock (p : proc) : Prop :=
  forall s, well_formed s ->
  exists s', p s = Some s' /\
             long_pressed_release_lock s' = long_pressed_release_lock s.

(** The tick counter after [if(++ticks >= subdiv) { ticks = 0; }]. *)
Definition next_ticks (s : state) : Z :=
  if u8 (ticks s + 1) >=? subdiv s then 0 else u8 (ticks s + 1).

(** The state after the pulse and the count of [tick], before its retime
    block. *)
Definition pulsed (s : state) : state :=
  with_ticks (next_ticks s)
    (with_trace
       (trace s ++
        tick_outputs (accent s && (ticks s =? 0)) (vibr_switch_pin s)) s).

(** The scheduler cancelled by [stop]. *)
Definition stopped (s : state) : state :=
  with_paused true (with_metronome None s).

(** The buffer holding [p] after a digit: scheduler stopped, entry timeout
    re-armed. *)
Definition typed (p : Z) (s : state) : state :=
  with_tempo_prompt p
    (with_type_timeout_alarm (Some INPUT_TIMEOUT_MS) (stopped s)).

(** The scheduler as [set_tempo t] starts it. *)
Definition started (t : Z) (s : state) : state :=
  with_paused false
    (with_metronome
       (Some (s64 (u64 (u64 ((60 * 1000 * 1000) / t) / subdiv s * u64 (-1)))))
       (stopped (with_ticks 0 (with_tempo t s)))).

(** ** Concrete inputs *)

(** The state a procedure leaves, the input itself where it fails. *)
Definition after (p : proc) (s : state) : state :=
  match p s with Some s' => s' | None => s end.

(** Freshly booted on an erased flash page, clock at 1 s. *)
Definition fresh : state := boot [] 1000000 false.

(** Ticking at 100 BPM, nothing being typed or tapped. *)
Definition running_100 : state := after (set_tempo 100) fresh.

(** Ticking at 100 BPM in triplets. *)
Definition triplets_100 : state := after (set_measure 3) running_100.

(** A page as [write_flash_presets] lays it out, holding the defaults but
    for a first subdivision byte of 10. *)
Definition page_subdiv_10 : list Z :=
  [0x42; 0x50; 0x4D; 60; 90; 60; 150; 10; 1; 2; 1; 0; 0; 1; 0].

(** The page [save_preset 0] writes at tempo 100, subdivision 2, accent
    on, over the default slots. *)
Definition page_saved : list Z :=
  [0x42; 0x50; 0x4D; 100; 90; 60; 150; 2; 1; 2; 1; 1; 0; 1; 0].

(** The same page with a first subdivision byte of 11. *)
Definition page_subdiv_11 : list Z :=
  [0x42; 0x50; 0x4D; 60; 90; 60; 150; 11; 1; 2; 1; 0; 0; 1; 0].

(** What a few fields of a possibly failed run show. *)
Definition observe {A} (f : state -> A) (r : option state) : option A :=
  option_map f r.

(** Booted on the page with a subdivision byte of 10, then set ticking at
    100 BPM. *)
Definition running_100_slot_10 : state :=
  after (set_tempo 100)
    (after read_flash_presets (boot page_subdiv_10 0 false)).

(** Ticking at 1 BPM. *)
Definition running_1 : state := after (set_tempo 1) fresh.

(** ** The checks of [read_flash_presets], as propositions *)

Definition signature_corrupted (b : Z -> Z) : Prop :=
  exists i, 0 <= i < MAGIC_NUMBER_LENGTH /\
            b i <> nth (Z.to_nat i) MAGIC_NUMBER 0.

Definition tempo_rejected (b : Z -> Z) : Prop :=
  exists i, 0 <= i < 4 /\
            (b (MAGIC_NUMBER_LENGTH + i) < 1 \/
             255 < b (MAGIC_NUMBER_LENGTH + i)).

Definition subdiv_rejected (b : Z -> Z) : Prop :=
  exists i, 0 <= i < 4 /\
            (b (MAGIC_NUMBER_LENGTH + i + 4) < 1 \/
             10 < b (MAGIC_NUMBER_LENGTH + i + 4)).

Definition accent_rejected (b : Z -> Z) : Prop :=
  exists i, 0 <= i < 4 /\ 1 < b (MAGIC_NUMBER_LENGTH + i + 8).

Definition block_violation (b : Z -> Z) : Prop :=
  signature_corrupted b \/ tempo_rejected b \/
  subdiv_rejected b \/ accent_rejected b.

(** The boot state with all four slots taken from the page. *)
Definition loaded (page : list Z) (now : Z) (sw : bool) : state :=
  let b := flash_byte page in
  with_accent_presets (map (fun i => b (MAGIC_NUMBER_LENGTH + i + 8)) (upto 4))
    (with_subdiv_presets
       (map (fun i => b (MAGIC_NUMBER_LENGTH + i + 4)) (upto 4))
       (with_tempo_presets (map (fun i => b (MAGIC_NUMBER_LENGTH + i)) (upto 4))
          (boot page now sw))).

(** ** The firmware as an event system *)

(** Callback of the [tempo_change] repeating timer, when armed. *)
Definition tempo_change_fire : proc :=
  fun s =>
    match tempo_change s with
    | Some CbIncreaseTempo => increase_tempo s
    | Some CbDecreaseTempo => decrease_tempo s
    | None => Some s
    end.

(** Callback of the [metronome] repeating timer, when armed. *)
Definition metronome_fire : proc :=
  fun s => match metronome s with Some _ => tick s | None => Some s end.

(** What can happen to the firmware after [main] has set it up. *)
Inductive event :=
| KeyPressed (key : Z)
| KeyLongPressed (key : Z)
| KeyReleased (key : Z)
| MetronomeFires
| TempoChangeFires
| InputTimeout
| TapTimeout
| ClockShows (t : Z)
| SwitchReads (level : bool).

Definition handle (e : event) : proc :=
  match e with
  | KeyPressed key => key_pressed key
  | KeyLongPressed key => key_long_pressed key
  | KeyReleased key => key_released key
  | MetronomeFires => metronome_fire
  | TempoChangeFires => tempo_change_fire
  | InputTimeout => input_timeout
  | TapTimeout => tap_timeout
  | ClockShows t => at_time t
  | SwitchReads level => modify (with_vibr_switch_pin level)
  end.

Definition run (es : list event) : proc :=
  fold_right (fun e k => handle e ;; k) skip es.

(** The scheduler invariant: the subdivision is in 1..9, and while the
    beat timer is armed the tick counter is below it. *)
Definition scheduler_inv (s : state) : Prop :=
  1 <= subdiv s <= 9 /\ (metronome s <> None -> 0 <= ticks s < subdiv s).

Definition preserves (p : proc) : Prop :=
  forall s s', scheduler_inv s -> p s = Some s' -> scheduler_inv s'.

(** ** The rest of main.c *)

(** [INACTIVE_TIMEOUT] of config.h: ten minutes, in microseconds. *)
Definition INACTIVE_TIMEOUT : Z := 10 * 60 * 1000 * 1000.

(** [inactive_check], the callback of the 5 s [inactive_alarm] timer: it
    changes no global, so it is embedded as its decision, [true] exactly
    when the callback calls [xosc_dormant()].  The subtraction is done in
    [uint64_t]. *)
Definition inactive_check (s : state) : bool :=
  paused s && (u64 (time_us_64 s - last_press s) >? INACTIVE_TIMEOUT).

(** [toggle_pause]; the condition of its [if] is the assignment
    [paused = !paused]. *)
Definition toggle_pause : proc :=
  modify (fun s => with_paused (negb (paused s)) s) ;;
  (fun s =>
     if paused s
     then stop s
     else when (tempo s >? 0) (set_tempo (tempo s)) s).

(** ** Invariants of the running firmware *)

(** The preset arrays hold four entries each, within the ranges that
    [read_flash_presets] checks. *)
Definition valid_presets (s : state) : Prop :=
  length (tempo_presets s) = 4%nat /\
  length (subdiv_presets s) = 4%nat /\
  length (accent_presets s) = 4%nat /\
  Forall (fun t => 1 <= t <= 255) (tempo_presets s) /\
  Forall (fun d => 1 <= d <= 10) (subdiv_presets s) /\
  Forall (fun a => 0 <= a <= 1) (accent_presets s).

(** The beat timer is either cancelled, with [paused] set, or armed, with
    [paused] clear, a negative delay of 26143 to 60000000 microseconds and
    the tick counter below the subdivision. *)
Definition timer_state (s : state) : Prop :=
  (metronome s = None /\ paused s = true) \/
  (exists d, metronome s = Some d /\ paused s = false /\
             -60000000 <= d <= -26143 /\ 0 <= ticks s < subdiv s).

Record firmware_inv (s : state) : Prop := {
  inv_tempo : 0 <= tempo s <= 255;
  inv_subdiv : 1 <= subdiv s <= 9;
  inv_prompt : 0 <= tempo_prompt s < 2 ^ 16;
  inv_taps : 0 <= num_taps s <= 255;
  inv_avg : 0 <= tap_interval_avg s < 2 ^ 63;
  inv_presets : valid_presets s;
  inv_timer : timer_state s
}.

Definition keeps (p : proc) : Prop :=
  forall s s', firmware_inv s -> p s = Some s' -> firmware_inv s'.

(** The bytes of a flash page. *)
Definition bytes (page : list Z) : Prop :=
  Forall (fun b => 0 <= b <= 255) page.

(** ** Concrete inputs, continued *)

(** One tap after startup; the clock still shows the time of the tap. *)
Definition tapped_once : state := after tap fresh.

(** In the middle of steady tapping, 500 ms after the last tap. *)
Definition steady_taps : state :=
  with_time_us_64 1500000
    (with_last_tap 1000000
       (with_tap_interval_avg 500000 (with_num_taps 2 fresh))).

(** The tap timeout has fired: the count is cleared, the average is not. *)
Definition after_timeout : state := after tap_timeout steady_taps.

(** After 255 taps. *)
Definition many_taps : state := with_num_taps 255 fresh.

(** Slot A saved at 100 BPM, then 90 typed. *)
Definition saved_then_90 : state :=
  after (type_digits [9; 0]) (after (save_preset 0) running_100).

(** Type 120, let it tick, set triplets, step the tempo up, let it tick,
    save to slot A. *)
Definition session : list event :=
  [KeyReleased 0; KeyReleased 1; KeyPressed 13; KeyReleased 13;
   MetronomeFires; KeyLongPressed 2; KeyReleased 2; MetronomeFires;
   KeyPressed 12; KeyReleased 12; MetronomeFires;
   KeyLongPressed 3; KeyReleased 3; InputTimeout; ClockShows 9000000].

(** ** Proof tactics *)

(** Projections of updated records, computed without touching the
    arithmetic inside. *)
Ltac fields :=
  cbn [started stopped typed
       tempo subdiv accent tempo_prompt num_taps ticks paused
       recalc_interval last_press long_pressed_release_lock tempo_presets
       subdiv_presets accent_presets tap_interval_avg last_tap metronome
       tempo_change type_timeout_alarm tap_timeout_alarm flash time_us_64
       vibr_switch_pin trace
       with_tempo with_subdiv with_accent with_tempo_prompt with_num_taps
       with_ticks with_paused with_recalc_interval with_last_press
       with_long_pressed_release_lock with_tempo_presets
       with_subdiv_presets with_accent_presets with_tap_interval_avg
       with_last_tap with_metronome with_tempo_change
       with_type_timeout_alarm with_tap_timeout_alarm with_flash
       with_time_us_64 with_vibr_switch_pin with_trace].

(** Decide the remaining conditionals of a goal that holds in each case. *)
Ltac case_ifs :=
  repeat match goal with
         | |- context [if ?c then _ else _] => destruct c
         end;
  reflexivity.

(** [fields] in a hypothesis. *)
Ltac fields_in H :=
  cbn [started stopped typed
       tempo subdiv accent tempo_prompt num_taps ticks paused
       recalc_interval last_press long_pressed_release_lock tempo_presets
       subdiv_presets accent_presets tap_interval_avg last_tap metronome
       tempo_change type_timeout_alarm tap_timeout_alarm flash time_us_64
       vibr_switch_pin trace
       with_tempo with_subdiv with_accent with_tempo_prompt with_num_taps
       with_ticks with_paused with_recalc_interval with_last_press
       with_long_pressed_release_lock with_tempo_presets
       with_subdiv_presets with_accent_presets with_tap_interval_avg
       with_last_tap with_metronome with_tempo_change
       with_type_timeout_alarm with_tap_timeout_alarm with_flash
       with_time_us_64 with_vibr_switch_pin with_trace] in H.

(** Rebuild the invariant of an updated state from that of the state it
    was made from. *)
Ltac reinv H :=
  destruct H as [Ht Hd Hp Hn Ha Hv Hm];
  split; unfold valid_presets, timer_state in *; fields;
  try assumption; try lia.

(** An update that keeps the invariant. *)
Ltac frame_inv :=
  let s := fresh "s" in let s' := fresh "s'" in
  let H := fresh "H" in let E := fresh "E" in
  intros s s' H [= E]; subst s'; reinv H.

(** Evaluate the bytes read from a page that is known entry by entry. *)
Ltac read_bytes H :=
  repeat match type of H with
         | context [flash_byte ?p ?i] =>
             let v := eval vm_compute in (flash_byte p i) in
             change (flash_byte p i) with v in H
         end.

(** * Properties *)

(** ** Machine arithmetic *)

Lemma u64_small (x : Z) : 0 <= x < 2 ^ 64 -> u64 x = x.
Proof. intros H. unfold u64. apply Z.mod_small. exact H. Qed.

Lemma u8_small (x : Z) : 0 <= x < 2 ^ 8 -> u8 x = x.
Proof. intros H. unfold u8. apply Z.mod_small. exact H. Qed.

Lemma u16_small (x : Z) : 0 <= x < 2 ^ 16 -> u16 x = x.
Proof. intros H. unfold u16. apply Z.mod_small. exact H. Qed.

(** Multiplying a [uint64_t] by [-1] and reading it as [int64_t] negates. *)
Lemma negated_interval (x : Z) :
  0 <= x < 2 ^ 63 -> s64 (u64 (x * u64 (-1))) = - x.
Proof.
  intros H. unfold s64, u64.
  rewrite Z.mod_mod by (compute; discriminate).
  change ((-1) mod 2 ^ 64) with (2 ^ 64 - 1).
  destruct (Z.eq_dec x 0) as [-> | Hx]; [reflexivity|].
  assert (E : (x * (2 ^ 64 - 1)) mod 2 ^ 64 = 2 ^ 64 - x).
  { symmetry. apply (Z.mod_unique _ _ (x - 1)); lia. }
  rewrite E.
  destruct (2 ^ 64 - x <? 2 ^ 63) eqn:C.
  - apply Z.ltb_lt in C. lia.
  - lia.
Qed.

(** ** Clock conversion *)

Lemma bpm_to_interval_range (bpm : Z) :
  1 <= bpm <= 255 ->
  exists q, bpm_to_interval bpm = Some q /\
            q = 60000000 / bpm /\ 235294 <= q <= 60000000.
Proof.
  intros H. unfold bpm_to_interval.
  destruct (bpm =? 0) eqn:E; [apply Z.eqb_eq in E; lia|].
  change (60 * 1000 * 1000) with 60000000.
  assert (Hq : 235294 <= 60000000 / bpm <= 60000000).
  { split.
    - apply Z.div_le_lower_bound; lia.
    - apply Z.div_le_upper_bound; lia. }
  exists (60000000 / bpm). rewrite u64_small by lia. auto.
Qed.

(** C9: for every bpm in 1..255 the round trip through
    [bpm_to_interval] and [interval_to_bpm] returns exactly [bpm]; the
    truncation of the two divisions of 60,000,000 never shows, so the result
    in particular never exceeds [bpm]. *)
Theorem bpm_interval_round_trip (bpm : Z) :
  1 <= bpm <= 255 ->
  exists r, obind (bpm_to_interval bpm) interval_to_bpm = Some r /\
            r = bpm /\ r <= bpm.
Proof.
  intros H.
  destruct (bpm_to_interval_range bpm H) as (q & -> & Hq & Hr).
  exists bpm. split; [|lia]. cbn [obind]. unfold interval_to_bpm.
  destruct (q =? 0) eqn:E; [apply Z.eqb_eq in E; lia|].
  change (60 * 1000 * 1000) with 60000000.
  assert (D : 60000000 / q = bpm).
  { pose proof (Z.mul_div_le 60000000 bpm ltac:(lia)) as H1.
    pose proof (Z.mul_succ_div_gt 60000000 bpm ltac:(lia)) as H2.
    rewrite <- Hq in H1, H2.
    symmetry. apply (Z.div_unique _ _ _ (60000000 - q * bpm)); nia. }
  rewrite D. rewrite u8_small by lia. reflexivity.
Qed.

Lemma bpm_interval_round_trip_witness :
  1 <= 120 <= 255 /\
  exists r, obind (bpm_to_interval 120) interval_to_bpm = Some r /\
            r = 120 /\ r <= 120.
Proof. split; [lia | apply (bpm_interval_round_trip 120); lia]. Defined.

(** ** The scheduler *)

Lemma set_tempo_runs (t : Z) (s : state) :
  1 <= t -> subdiv s <> 0 -> set_tempo t s = Some (started t s).
Proof.
  intros Ht Hd. unfold set_tempo, bpm_to_interval, started, stopped.
  destruct (t <? 1) eqn:E1; [apply Z.ltb_lt in E1; lia|].
  destruct (t =? 0) eqn:E2; [apply Z.eqb_eq in E2; lia|].
  unfold stop, andthen, modify; cbn.
  destruct (subdiv s =? 0) eqn:E3; [apply Z.eqb_eq in E3; lia|].
  reflexivity.
Qed.

Lemma set_tempo_ignores_zero (t : Z) (s : state) :
  t < 1 -> set_tempo t s = Some s.
Proof.
  intros Ht. unfold set_tempo.
  destruct (t <? 1) eqn:E1; [reflexivity | apply Z.ltb_ge in E1; lia].
Qed.

Lemma stop_runs (s : state) : stop s = Some (stopped s).
Proof. reflexivity. Qed.

(** The delay handed to the repeating timer is the negated tick interval. *)
Lemma timer_delay (t d : Z) :
  1 <= t <= 255 -> 1 <= d ->
  s64 (u64 (u64 ((60 * 1000 * 1000) / t) / d * u64 (-1)))
  = - (60000000 / t / d).
Proof.
  intros Ht Hd. change (60 * 1000 * 1000) with 60000000.
  assert (Hq : 0 <= 60000000 / t <= 60000000).
  { split; [apply Z.div_pos; lia | apply Z.div_le_upper_bound; lia]. }
  rewrite (u64_small (60000000 / t)) by lia.
  assert (Hr : 0 <= 60000000 / t / d <= 60000000).
  { split; [apply Z.div_pos; lia | apply Z.div_le_upper_bound; nia]. }
  rewrite negated_interval by lia. reflexivity.
Qed.

Lemma set_measure_unfold (m : Z) (s : state) :
  set_measure m s =
  if (m <? 1) || (m >? 9) then Some s
  else if tempo s >? 0
       then set_tempo (tempo s) (stopped (with_subdiv m s))
       else Some (stopped (with_subdiv m s)).
Proof.
  unfold set_measure, stop, stopped, andthen, when, modify, skip.
  destruct ((m <? 1) || (m >? 9)); [reflexivity|]. fields.
  destruct (tempo s >? 0); reflexivity.
Qed.

Lemma tick_unfold (s : state) :
  tick s =
  if recalc_interval s then
    if tempo s >? 0
    then option_map (with_recalc_interval false)
           (set_tempo (tempo s) (stopped (pulsed s)))
    else Some (with_recalc_interval false (stopped (pulsed s)))
  else Some (pulsed s).
Proof.
  unfold tick, pulsed, stopped, next_ticks, tick_outputs, blink, vibrate,
    emit, stop, andthen, when, modify, skip.
  destruct s as [tempo subdiv accent tp nt ticks paused recalc lp lock
                 tps sps aps avg lt met tc tta tpa fl tm sw tr].
  cbn.
  destruct (accent && (ticks =? 0)); cbn;
    destruct sw; cbn;
    destruct (u8 (ticks + 1) >=? subdiv); cbn;
    destruct recalc; cbn; rewrite <- ?app_assoc; cbn; try reflexivity.
  all: destruct (tempo >? 0); cbn; try reflexivity.
  all: match goal with
       | |- match ?x with _ => _ end = _ => destruct x
       end; reflexivity.
Qed.

Lemma next_ticks_subdiv_3 (s : state) :
  subdiv s = 3 -> 0 <= ticks s < 3 -> next_ticks s = (ticks s + 1) mod 3.
Proof.
  intros Hd Ht. unfold next_ticks. rewrite Hd.
  assert (Hc : ticks s = 0 \/ ticks s = 1 \/ ticks s = 2) by lia.
  destruct Hc as [-> | [-> | ->]]; reflexivity.
Qed.

(** One tick with three subdivisions. *)
Lemma tick_step (s : state) :
  subdiv s = 3 -> 0 <= ticks s < 3 ->
  exists s',
    tick s = Some s' /\ subdiv s' = 3 /\ 0 <= ticks s' < 3 /\
    trace s' =
      trace s ++
      tick_outputs (accent s && (ticks s =? 0)) (vibr_switch_pin s) /\
    (recalc_interval s = false ->
     recalc_interval s' = false /\ ticks s' = (ticks s + 1) mod 3 /\
     metronome s' = metronome s /\ paused s' = paused s).
Proof.
  intros Hd Ht. rewrite tick_unfold.
  pose proof (next_ticks_subdiv_3 s Hd Ht) as Hn.
  assert (Hm : 0 <= (ticks s + 1) mod 3 < 3) by (apply Z.mod_pos_bound; lia).
  destruct (recalc_interval s) eqn:Hr.
  - destruct (tempo s >? 0) eqn:Hp.
    + apply Z.gtb_lt in Hp.
      rewrite set_tempo_runs by (cbn; lia).
      eexists. split; [reflexivity|]. cbn.
      repeat split; try lia; try discriminate.
    + eexists. split; [reflexivity|]. cbn.
      repeat split; try lia; try discriminate.
  - eexists. split; [reflexivity|]. cbn.
    repeat split; try lia; try assumption.
Qed.

(** C8: with [subdiv = 3] any number of successive tick callbacks runs
    without error and keeps [ticks < subdiv]; the next tick blinks purple
    and vibrates as a first subdivision exactly when [accent] is set and
    [ticks] is 0 on entry; and, no retime being pending, the counter walks
    0,1,2,0,1,2,... with the timer left armed as it was. *)
Theorem tick_cycle_subdiv_3 (s : state) (n : nat) :
  subdiv s = 3 -> 0 <= ticks s < 3 ->
  exists s' s'',
    repeat_proc n tick s = Some s' /\
    subdiv s' = 3 /\ 0 <= ticks s' < subdiv s' /\
    tick s' = Some s'' /\
    trace s'' =
      trace s' ++
      tick_outputs (accent s' && (ticks s' =? 0)) (vibr_switch_pin s') /\
    (recalc_interval s = false ->
     ticks s' = (ticks s + Z.of_nat n) mod 3 /\
     metronome s' = metronome s /\ paused s' = paused s).
Proof.
  revert s. induction n as [|n IH]; intros s Hd Ht.
  - destruct (tick_step s Hd Ht) as (s2 & E2 & _ & _ & T2 & _).
    exists s, s2. cbn [repeat_proc skip]. rewrite Hd.
    split; [reflexivity|]. split; [reflexivity|]. split; [exact Ht|].
    split; [exact E2|]. split; [exact T2|].
    intros _. split; [|split; reflexivity].
    rewrite Z.add_0_r. symmetry. apply Z.mod_small. exact Ht.
  - destruct (tick_step s Hd Ht) as (s1 & E1 & D1 & T1 & _ & R1).
    destruct (IH s1 D1 T1) as (s' & s'' & E & D & T & E' & Tr & R).
    exists s', s''. cbn [repeat_proc]. unfold andthen. rewrite E1.
    split; [exact E|]. split; [exact D|]. split; [exact T|].
    split; [exact E'|]. split; [exact Tr|].
    intros H. destruct (R1 H) as (R1a & R1b & R1c & R1d).
    destruct (R R1a) as (Rb & Rc & Rd).
    split; [|split; congruence].
    rewrite Rb, R1b, Zplus_mod_idemp_l. f_equal. lia.
Qed.

Lemma tick_cycle_subdiv_3_witness :
  subdiv triplets_100 = 3 /\ 0 <= ticks triplets_100 < 3 /\
  exists s' s'',
    repeat_proc 4 tick triplets_100 = Some s' /\
    subdiv s' = 3 /\ 0 <= ticks s' < subdiv s' /\
    tick s' = Some s'' /\
    trace s'' =
      trace s' ++
      tick_outputs (accent s' && (ticks s' =? 0)) (vibr_switch_pin s') /\
    (recalc_interval triplets_100 = false ->
     ticks s' = (ticks triplets_100 + Z.of_nat 4) mod 3 /\
     metronome s' = metronome triplets_100 /\ paused s' = paused triplets_100).
Proof.
  split; [reflexivity|]. split; [vm_compute; split; congruence|].
  apply (tick_cycle_subdiv_3 triplets_100 4).
  - reflexivity.
  - vm_compute. split; congruence.
Defined.

(** ** Tempo adjustment keys *)

Lemma increase_tempo_unfold (s : state) :
  increase_tempo s =
  Some (with_recalc_interval true
          (if tempo s >? 0 then with_tempo (tempo s - 1) s else s)).
Proof.
  unfold increase_tempo, andthen, when, modify, skip.
  destruct (tempo s >? 0); reflexivity.
Qed.

Lemma decrease_tempo_unfold (s : state) :
  decrease_tempo s =
  Some (with_recalc_interval true
          (if tempo s <? 256 then with_tempo (u8 (tempo s + 1)) s else s)).
Proof.
  unfold decrease_tempo, andthen, when, modify, skip.
  destruct (tempo s <? 256); reflexivity.
Qed.

(** C3, as the code has it: every press of an adjustment key applies one
    step and requests a retime.  Key 14 ([increase_tempo]) lowers a tempo in
    1..255 by exactly one, so that 1 becomes 0, the stopped value, and leaves
    0 alone: it never wraps below 0.  Key 12 ([decrease_tempo]) raises a
    tempo in 0..254 by exactly one, staying within 1..255. *)
Theorem adjustment_key_steps (s : state) :
  0 <= tempo s <= 255 ->
  (exists s',
     key_pressed 14 s = Some s' /\
     tempo s' = (if tempo s =? 0 then 0 else tempo s - 1) /\
     0 <= tempo s' <= 254 /\ recalc_interval s' = true) /\
  (tempo s <= 254 ->
   exists s',
     key_pressed 12 s = Some s' /\
     tempo s' = tempo s + 1 /\
     1 <= tempo s' <= 255 /\ recalc_interval s' = true).
Proof.
  intros Ht. unfold key_pressed, andthen, modify. split.
  - rewrite increase_tempo_unfold. fields.
    eexists. split; [reflexivity|].
    destruct (Z.eq_dec (tempo s) 0) as [Hz | Hz].
    + rewrite Hz. cbn. repeat split; lia.
    + replace (tempo s >? 0) with true by (symmetry; apply Z.gtb_lt; lia).
      replace (tempo s =? 0) with false by (symmetry; apply Z.eqb_neq; lia).
      fields. repeat split; lia.
  - intros Hm. rewrite decrease_tempo_unfold. fields.
    replace (tempo s <? 256) with true by (symmetry; apply Z.ltb_lt; lia).
    rewrite u8_small by lia.
    eexists. split; [reflexivity|]. fields. repeat split; lia.
Qed.

Lemma adjustment_key_steps_witness :
  0 <= tempo running_100 <= 255 /\
  (exists s',
     key_pressed 14 running_100 = Some s' /\
     tempo s' = (if tempo running_100 =? 0 then 0 else tempo running_100 - 1) /\
     0 <= tempo s' <= 254 /\ recalc_interval s' = true) /\
  (tempo running_100 <= 254 ->
   exists s',
     key_pressed 12 running_100 = Some s' /\
     tempo s' = tempo running_100 + 1 /\
     1 <= tempo s' <= 255 /\ recalc_interval s' = true).
Proof.
  split; [vm_compute; split; discriminate|].
  apply (adjustment_key_steps running_100). vm_compute. split; discriminate.
Defined.

(** C3 as stated fails: at tempo 1 one step of [increase_tempo], or one
    press of key 14, takes the tempo to 0, below 1. *)
Lemma increase_tempo_reaches_zero :
  tempo running_1 = 1 /\
  observe tempo (increase_tempo running_1) = Some 0 /\
  observe tempo (key_pressed 14 running_1) = Some 0.
Proof. repeat split; vm_compute; reflexivity. Qed.

(** At 255 the guard [tempo < 256] lets the step through and the [uint8_t]
    wraps to 0. *)
Lemma decrease_tempo_wraps_at_255 :
  observe tempo (decrease_tempo (after (set_tempo 255) fresh)) = Some 0.
Proof. vm_compute. reflexivity. Qed.

(** ** Tempo entry *)

Lemma type_tempo_unfold (n : Z) (s : state) :
  type_tempo n s =
  let p := u16 (u16 (tempo_prompt s * 10) + n) in
  if (p >? 0) && (p <? 256)
  then set_tempo (u8 p) (typed p s) else Some (typed p s).
Proof.
  unfold type_tempo, typed, stopped, stop, andthen, when, modify, skip.
  destruct s as [tempo subdiv accent tp nt ticks paused recalc lp lock
                 tps sps aps avg lt met tc tta tpa fl tm sw tr].
  cbn.
  destruct ((u16 (u16 (tp * 10) + n) >? 0) && (u16 (u16 (tp * 10) + n) <? 256));
    reflexivity.
Qed.

(** A digit that brings the prompt into 1..255 starts the scheduler there. *)
Lemma type_tempo_in_range (n p : Z) (s : state) :
  tempo_prompt s * 10 + n = p ->
  0 <= tempo_prompt s -> 0 <= n -> 1 <= p <= 255 -> subdiv s <> 0 ->
  type_tempo n s = Some (started p (typed p s)).
Proof.
  intros E H0 Hn Hp Hs. rewrite type_tempo_unfold. cbn zeta.
  rewrite (u16_small (tempo_prompt s * 10)) by (cbn; lia).
  rewrite E. rewrite (u16_small p) by (cbn; lia).
  replace ((p >? 0) && (p <? 256)) with true
    by (symmetry; apply andb_true_iff; split;
        [apply Z.gtb_lt | apply Z.ltb_lt]; lia).
  rewrite (u8_small p) by (cbn; lia).
  apply set_tempo_runs; [lia | exact Hs].
Qed.

(** A digit that takes the prompt past 255, short of the 16-bit wrap, only
    stops the scheduler. *)
Lemma type_tempo_out_of_range (n p : Z) (s : state) :
  tempo_prompt s * 10 + n = p ->
  0 <= tempo_prompt s -> 0 <= n -> 256 <= p < 2 ^ 16 ->
  type_tempo n s = Some (typed p s).
Proof.
  intros E H0 Hn Hp. rewrite type_tempo_unfold. cbn zeta.
  rewrite (u16_small (tempo_prompt s * 10)) by lia.
  rewrite E. rewrite (u16_small p) by lia.
  replace (p <? 256) with false by (symmetry; apply Z.ltb_ge; lia).
  rewrite andb_false_r. reflexivity.
Qed.

(** C2, as the code has it: from an empty buffer the digits 1,2,0 leave
    the scheduler running at tempo 120; the digits 2,6,0 accumulate 260,
    which is not applied (the third digit only stops the scheduler), and
    the live tempo is left at 26, the last prefix in range, with the
    scheduler stopped. *)
Theorem type_tempo_sequences (s : state) :
  tempo_prompt s = 0 -> 1 <= subdiv s <= 9 ->
  (exists s',
     type_digits [1; 2; 0] s = Some s' /\
     tempo_prompt s' = 120 /\ tempo s' = 120 /\ paused s' = false /\
     metronome s' = Some (- (500000 / subdiv s))) /\
  (exists s2 s',
     type_digits [2; 6] s = Some s2 /\ tempo s2 = 26 /\
     type_tempo 0 s2 = Some s' /\ s' = typed 260 s2 /\
     type_digits [2; 6; 0] s = Some s' /\
     tempo_prompt s' = 260 /\ tempo s' = 26 /\ paused s' = true /\
     metronome s' = None).
Proof.
  intros Hp Hd. unfold type_digits. cbn [for_each]. unfold andthen, skip.
  split.
  - rewrite (type_tempo_in_range 1 1 s) by (rewrite ?Hp; lia).
    rewrite (type_tempo_in_range 2 12) by (fields; lia).
    rewrite (type_tempo_in_range 0 120) by (fields; lia).
    eexists. split; [reflexivity|]. fields.
    split; [reflexivity|]. split; [reflexivity|]. split; [reflexivity|].
    rewrite timer_delay by lia. reflexivity.
  - rewrite (type_tempo_in_range 2 2 s) by (rewrite ?Hp; lia).
    rewrite (type_tempo_in_range 6 26) by (fields; lia).
    exists (started 26 (typed 26 (started 2 (typed 2 s)))).
    rewrite (type_tempo_out_of_range 0 260) by (fields; lia).
    eexists. split; [reflexivity|]. split; [reflexivity|].
    split; [reflexivity|]. split; [reflexivity|].
    split; [reflexivity|]. fields.
    repeat split; reflexivity.
Qed.

Lemma type_tempo_sequences_witness :
  tempo_prompt running_100 = 0 /\ 1 <= subdiv running_100 <= 9 /\
  (exists s',
     type_digits [1; 2; 0] running_100 = Some s' /\
     tempo_prompt s' = 120 /\ tempo s' = 120 /\ paused s' = false /\
     metronome s' = Some (- (500000 / subdiv running_100))) /\
  (exists s2 s',
     type_digits [2; 6] running_100 = Some s2 /\ tempo s2 = 26 /\
     type_tempo 0 s2 = Some s' /\ s' = typed 260 s2 /\
     type_digits [2; 6; 0] running_100 = Some s' /\
     tempo_prompt s' = 260 /\ tempo s' = 26 /\ paused s' = true /\
     metronome s' = None).
Proof.
  split; [reflexivity|]. split; [vm_compute; split; discriminate|].
  apply (type_tempo_sequences running_100).
  - reflexivity.
  - vm_compute. split; discriminate.
Defined.

(** C2 as stated fails: typing 2,6,0 while the metronome runs at 100 BPM
    does not leave the live tempo at 100; the prefixes 2 and 26 were
    applied on the way and the tempo is left at 26. *)
Lemma type_2_6_0_overwrites_live_tempo :
  tempo_prompt running_100 = 0 /\ tempo running_100 = 100 /\
  observe (fun s => (tempo_prompt s, tempo s, paused s))
    (type_digits [2; 6; 0] running_100) = Some (260, 26, true).
Proof. repeat split; vm_compute; reflexivity. Qed.

(** Below the 16-bit wrap the buffer holds the decimal value typed. *)
Lemma type_digits_decimal_value (ds : list Z) (s : state) :
  tempo_prompt s = 0 -> subdiv s <> 0 ->
  Forall (fun d => 0 <= d <= 9) ds -> decimal_value ds < 2 ^ 16 ->
  exists s', type_digits ds s = Some s' /\
             tempo_prompt s' = decimal_value ds /\ subdiv s' = subdiv s.
Proof.
  intros Hp Hs Hds Hv. unfold decimal_value in *.
  assert (G : forall ds acc s,
             tempo_prompt s = acc -> 0 <= acc -> subdiv s <> 0 ->
             Forall (fun d => 0 <= d <= 9) ds ->
             fold_left (fun a d => a * 10 + d) ds acc < 2 ^ 16 ->
             exists s', type_digits ds s = Some s' /\
                        tempo_prompt s' =
                          fold_left (fun a d => a * 10 + d) ds acc /\
                        subdiv s' = subdiv s).
  { clear. induction ds as [|d ds IH]; intros acc s Hp Ha Hs Hds Hv.
    - exists s. cbn. auto.
    - inversion Hds as [|? ? Hd Hds']; subst. cbn [fold_left] in *.
      assert (Hmono : forall l a, 0 <= a -> Forall (fun d => 0 <= d <= 9) l ->
                a <= fold_left (fun a d => a * 10 + d) l a).
      { clear. induction l as [|x l IHl]; intros a Ha Hl; cbn; [lia|].
        inversion Hl; subst. etransitivity; [|apply IHl; [lia|assumption]].
        lia. }
      pose proof (Hmono ds (tempo_prompt s * 10 + d) ltac:(lia) Hds') as Hle.
      unfold type_digits. cbn [for_each]. unfold andthen.
      destruct (Z_le_dec (tempo_prompt s * 10 + d) 255) as [Hin | Hout].
      + destruct (Z.eq_dec (tempo_prompt s * 10 + d) 0) as [Hz | Hnz].
        * rewrite type_tempo_unfold. cbn zeta.
          rewrite (u16_small (tempo_prompt s * 10)) by lia.
          rewrite Hz. change (u16 0) with 0. cbn [Z.gtb Z.compare andb].
          destruct (IH 0 (typed 0 s)) as (s' & E & P & D);
            try assumption; try reflexivity; try lia.
          { rewrite <- Hz. exact Hv. }
          exists s'. split; [exact E|]. split; assumption.
        * rewrite (type_tempo_in_range d (tempo_prompt s * 10 + d))
            by (try reflexivity; lia).
          destruct (IH (tempo_prompt s * 10 + d)
                      (started (tempo_prompt s * 10 + d)
                         (typed (tempo_prompt s * 10 + d) s)))
            as (s' & E & P & D); try assumption; try reflexivity; try lia.
          exists s'. split; [exact E|]. split; assumption.
      + rewrite (type_tempo_out_of_range d (tempo_prompt s * 10 + d))
          by (try reflexivity; lia).
        destruct (IH (tempo_prompt s * 10 + d)
                    (typed (tempo_prompt s * 10 + d) s))
          as (s' & E & P & D); try assumption; try reflexivity; try lia.
        exists s'. split; [exact E|]. split; assumption. }
  apply (G ds 0 s); auto. lia.
Qed.

(** C7: on the code, a buffer value of 256 or more is applied once the
    16-bit buffer wraps: the digits 6,5,5,3,7 spell 65537, the buffer
    holds 65537 mod 65536 = 1, and the fifth digit starts the scheduler at
    tempo 1. *)
Theorem type_tempo_wraps_at_16_bits :
  tempo_prompt fresh = 0 /\
  decimal_value [6; 5; 5; 3; 7] = 65537 /\
  observe (fun s => (tempo_prompt s, paused s))
    (type_digits [6; 5; 5; 3] fresh) = Some (6553, true) /\
  observe (fun s => (tempo_prompt s, tempo s, paused s, metronome s))
    (type_digits [6; 5; 5; 3; 7] fresh)
  = Some (1, 1, false, Some (-60000000)).
Proof. repeat split; vm_compute; reflexivity. Qed.

(** ** Tap tempo *)

Lemma tap_unfold (s : state) :
  tap s =
  let now := time_us_64 s in
  let s1 := with_num_taps (u8 (num_taps s + 1))
              (with_tap_timeout_alarm (Some INPUT_TIMEOUT_MS) (stopped s)) in
  if num_taps s1 >? 1 then
    let avg := u64 (tap_interval_avg s + u64 (now - last_tap s)) / 2 in
    obind (interval_to_bpm avg)
      (fun t => option_map (with_last_tap now)
                  (set_tempo t (with_tap_interval_avg avg s1)))
  else Some (with_last_tap now s1).
Proof.
  unfold tap, stopped, stop, andthen, when, modify, skip.
  destruct s as [tempo subdiv accent tp nt ticks paused recalc lp lock
                 tps sps aps avg lt met tc tta tpa fl tm sw tr].
  cbn.
  destruct (u8 (nt + 1) >? 1); cbn; [|reflexivity].
  match goal with |- context [interval_to_bpm ?x] =>
    destruct (interval_to_bpm x) end; cbn; [|reflexivity].
  match goal with |- match ?x with _ => _ end = _ => destruct x end;
    reflexivity.
Qed.

(** C1: on the code, two taps 500 ms apart from a reset tap state start
    the scheduler at 240 BPM, not 120: the first measured interval is
    averaged with the initial [tap_interval_avg] of 0, giving 250 ms.  A
    third tap 1000 ms later gives (250 + 1000) / 2 = 625 ms, 96 BPM, not
    750 ms and 80 BPM. *)
Theorem tap_first_interval_is_halved :
  num_taps fresh = 0 /\ tap_interval_avg fresh = 0 /\
  observe (fun s => (tempo s, paused s, metronome s, tap_interval_avg s))
    ((tap ;; at_time 1500000 ;; tap) fresh)
  = Some (240, false, Some (-250000), 250000) /\
  observe (fun s => (tempo s, paused s, metronome s, tap_interval_avg s))
    ((tap ;; at_time 1500000 ;; tap ;; at_time 2500000 ;; tap) fresh)
  = Some (96, false, Some (-625000), 625000).
Proof. repeat split; vm_compute; reflexivity. Qed.

(** The same for every reset tap state and every time of the first tap:
    the second tap halves the measured interval [d]. *)
Lemma tap_second_tap_halves (s : state) (d : Z) :
  num_taps s = 0 -> tap_interval_avg s = 0 -> subdiv s <> 0 ->
  0 <= time_us_64 s -> 2 <= d -> time_us_64 s + d < 2 ^ 64 ->
  exists s2,
    (tap ;; at_time (time_us_64 s + d) ;; tap) s = Some s2 /\
    tap_interval_avg s2 = d / 2.
Proof.
  intros Hn Ha Hs Ht Hd Hb. unfold andthen at 1.
  rewrite tap_unfold. cbn zeta. cbn [num_taps with_num_taps].
  rewrite Hn. change (u8 (0 + 1) >? 1) with false. cbn iota.
  unfold andthen, at_time, modify. rewrite tap_unfold. cbn.
  rewrite Ha. change (u8 (u8 (0 + 1) + 1) >? 1) with true. cbn iota.
  replace (time_us_64 s + d - time_us_64 s) with d by lia.
  rewrite (u64_small d) by lia. rewrite Z.add_0_l, (u64_small d) by lia.
  assert (Hh : 1 <= d / 2) by (apply Z.div_le_lower_bound; lia).
  unfold interval_to_bpm.
  destruct (d / 2 =? 0) eqn:E; [apply Z.eqb_eq in E; lia|]. cbn [obind].
  set (t := u8 (60 * 1000 * 1000 / (d / 2))).
  destruct (Z_lt_dec t 1) as [Hlt | Hge].
  - rewrite set_tempo_ignores_zero by exact Hlt.
    eexists. split; [reflexivity|]. reflexivity.
  - rewrite set_tempo_runs by (cbn; lia).
    eexists. split; [reflexivity|]. reflexivity.
Qed.

(** ** Preset validation at startup *)

(** C5: a page whose only deviation from a valid block is a subdivision
    byte of 10 is accepted by [read_flash_presets]: the check is
    [> 10], not [> 9], and the slot is loaded with subdivision 10. *)
Theorem read_flash_presets_accepts_subdiv_10 :
  invalid_data (flash_byte page_subdiv_10) = false /\
  observe (fun s => (tempo_presets s, subdiv_presets s, accent_presets s))
    (main_init page_subdiv_10 0 false)
  = Some ([60; 90; 60; 150], [10; 1; 2; 1], [0; 0; 1; 0]) /\
  subdiv_presets (boot page_subdiv_10 0 false) = [1; 1; 2; 1].
Proof. repeat split; vm_compute; reflexivity. Qed.

(** A loop that only ever sets a flag ends with the flag set exactly when
    it started set or some iteration sets it. *)
Lemma fold_flag (f : bool -> Z -> bool) (l : list Z) (b0 : bool) :
  (forall i, f true i = true) ->
  fold_left f l b0 = true <->
  b0 = true \/ exists i, In i l /\ f false i = true.
Proof.
  intros Hf. revert b0. induction l as [|x l IH]; intros b0; cbn [fold_left].
  - split; [auto | intros [H | (i & [] & _)]; exact H].
  - rewrite IH. split.
    + intros [H | (i & Hi & H)].
      * destruct b0; [auto|]. right. exists x.
        split; [left; reflexivity | exact H].
      * right. exists i. split; [right; exact Hi | exact H].
    + intros [-> | (i & [<- | Hi] & H)].
      * left. apply Hf.
      * left. destruct b0; [apply Hf | exact H].
      * right. exists i. auto.
Qed.

Lemma in_upto (n : nat) (i : Z) : In i (upto n) <-> 0 <= i < Z.of_nat n.
Proof.
  unfold upto. rewrite in_map_iff. split.
  - intros (k & <- & Hk). apply in_seq in Hk. lia.
  - intros H. exists (Z.to_nat i). split; [lia|]. apply in_seq. lia.
Qed.

Lemma invalid_data_spec (b : Z -> Z) :
  invalid_data b = true <-> block_violation b.
Proof.
  unfold invalid_data, block_violation.
  rewrite fold_flag.
  2:{ intros i. cbv beta. case_ifs. }
  rewrite fold_flag.
  2:{ intros i. cbv beta. case_ifs. }
  unfold signature_corrupted, tempo_rejected, subdiv_rejected,
    accent_rejected.
  split.
  - intros [[H | (i & Hi & H)] | (i & Hi & H)].
    + discriminate.
    + left. exists i. apply in_upto in Hi. split; [exact Hi|].
      destruct (b i =? nth (Z.to_nat i) MAGIC_NUMBER 0) eqn:E;
        [discriminate | apply Z.eqb_neq; exact E].
    + apply in_upto in Hi. right.
      destruct (b (MAGIC_NUMBER_LENGTH + i) <? 1) eqn:E1;
        [left; exists i; apply Z.ltb_lt in E1; auto|].
      destruct (b (MAGIC_NUMBER_LENGTH + i) >? 255) eqn:E2;
        [left; exists i; apply Z.gtb_lt in E2; auto|].
      destruct (b (MAGIC_NUMBER_LENGTH + i + 4) <? 1) eqn:E3;
        [right; left; exists i; apply Z.ltb_lt in E3; auto|].
      destruct (b (MAGIC_NUMBER_LENGTH + i + 4) >? 10) eqn:E4;
        [right; left; exists i; apply Z.gtb_lt in E4; auto|].
      destruct (b (MAGIC_NUMBER_LENGTH + i + 8) >? 1) eqn:E5;
        [right; right; exists i; apply Z.gtb_lt in E5; auto|].
      discriminate.
  - intros [(i & Hi & H) | [(i & Hi & H) | [(i & Hi & H) | (i & Hi & H)]]].
    + left. right. exists i. split; [apply in_upto; exact Hi|].
      apply Z.eqb_neq in H. rewrite H. reflexivity.
    + right. exists i. split; [apply in_upto; exact Hi|].
      replace ((b (MAGIC_NUMBER_LENGTH + i) <? 1)
               || (b (MAGIC_NUMBER_LENGTH + i) >? 255)) with true.
      * case_ifs.
      * symmetry. apply orb_true_iff.
        destruct H; [left; apply Z.ltb_lt | right; apply Z.gtb_lt]; lia.
    + right. exists i. split; [apply in_upto; exact Hi|].
      replace ((b (MAGIC_NUMBER_LENGTH + i + 4) <? 1)
               || (b (MAGIC_NUMBER_LENGTH + i + 4) >? 10)) with true.
      * case_ifs.
      * symmetry. apply orb_true_iff.
        destruct H; [left; apply Z.ltb_lt | right; apply Z.gtb_lt]; lia.
    + right. exists i. split; [apply in_upto; exact Hi|].
      replace (b (MAGIC_NUMBER_LENGTH + i + 8) >? 1) with true
        by (symmetry; apply Z.gtb_lt; lia).
      case_ifs.
Qed.

(** C6: validation at startup is all-or-nothing.  A page with a corrupted
    signature, with a subdivision byte of 0 or 11, or with any other field
    outside the range checked for it makes [read_flash_presets] leave the
    state, and with it all four slots, exactly at the compiled-in defaults;
    a page that passes every check overwrites all four slots from the
    page. *)
Theorem read_flash_presets_all_or_nothing
  (page : list Z) (now : Z) (sw : bool) :
  let b := flash_byte page in
  (signature_corrupted b \/
   (exists i, 0 <= i < 4 /\
              (b (MAGIC_NUMBER_LENGTH + i + 4) = 0 \/
               b (MAGIC_NUMBER_LENGTH + i + 4) = 11)) \/
   block_violation b ->
   main_init page now sw = Some (boot page now sw)) /\
  (~ block_violation b ->
   main_init page now sw = Some (loaded page now sw)).
Proof.
  intros b. unfold main_init, read_flash_presets.
  change (flash (boot page now sw)) with page. fold b.
  split.
  - intros H.
    assert (V : block_violation b).
    { destruct H as [H | [(i & Hi & H) | H]].
      - left. exact H.
      - right. right. left. exists i. split; [exact Hi | lia].
      - exact H. }
    apply invalid_data_spec in V. rewrite V. reflexivity.
  - intros H.
    destruct (invalid_data b) eqn:V;
      [exfalso; apply H, invalid_data_spec; exact V|].
    reflexivity.
Qed.

Lemma read_flash_presets_all_or_nothing_witness :
  main_init page_subdiv_11 0 false = Some (boot page_subdiv_11 0 false) /\
  main_init page_saved 0 false = Some (loaded page_saved 0 false) /\
  tempo_presets (loaded page_saved 0 false) = [100; 90; 60; 150].
Proof.
  split; [|split; [|reflexivity]].
  - apply (proj1 (read_flash_presets_all_or_nothing page_subdiv_11 0 false)).
    right. left. exists 0. split; [lia|]. right. reflexivity.
  - apply (proj2 (read_flash_presets_all_or_nothing page_saved 0 false)).
    intros V. apply invalid_data_spec in V. vm_compute in V. discriminate.
Defined.

(** ** Applying a preset whose subdivision [set_measure] rejects *)

(** C10: when the slot holds a subdivision outside 1..9, [apply_preset]
    overwrites the live tempo and accent from the slot and [set_measure]
    returns at once: subdivision, tick counter, pause flag and the armed
    timer with its delay are left as they were, and nothing is sent out. *)
Theorem apply_preset_rejected_subdiv (c t a m : Z) (s : state) :
  arr_get (tempo_presets s) c = Some t ->
  arr_get (accent_presets s) c = Some a ->
  arr_get (subdiv_presets s) c = Some m ->
  m < 1 \/ 9 < m ->
  exists s',
    apply_preset c s = Some s' /\
    tempo s' = t /\ accent s' = negb (a =? 0) /\
    subdiv s' = subdiv s /\ ticks s' = ticks s /\
    paused s' = paused s /\ metronome s' = metronome s /\
    trace s' = trace s.
Proof.
  intros Ht Ha Hm Hr. unfold apply_preset, andthen.
  rewrite Ht. cbn [obind]. fields.
  rewrite Ha. cbn [obind]. fields.
  rewrite Hm. cbn [obind].
  rewrite set_measure_unfold.
  replace ((m <? 1) || (m >? 9)) with true.
  - eexists. split; [reflexivity|]. fields. repeat split; reflexivity.
  - symmetry. apply orb_true_iff.
    destruct Hr; [left; apply Z.ltb_lt | right; apply Z.gtb_lt]; lia.
Qed.

(** The slot with subdivision 10 comes from a page that
    [read_flash_presets] accepted; the metronome, running at 100 BPM, keeps
    its 600 ms delay while the tempo variable becomes 60. *)
Lemma apply_preset_rejected_subdiv_witness :
  main_init page_subdiv_10 0 false <> None /\
  arr_get (subdiv_presets running_100_slot_10) 0 = Some 10 /\
  metronome running_100_slot_10 = Some (-600000) /\
  exists s',
    apply_preset 0 running_100_slot_10 = Some s' /\
    tempo s' = 60 /\ accent s' = negb (0 =? 0) /\
    subdiv s' = subdiv running_100_slot_10 /\
    ticks s' = ticks running_100_slot_10 /\
    paused s' = paused running_100_slot_10 /\
    metronome s' = metronome running_100_slot_10 /\
    trace s' = trace running_100_slot_10.
Proof.
  split; [vm_compute; discriminate|].
  split; [reflexivity|]. split; [reflexivity|].
  apply (apply_preset_rejected_subdiv 0 60 0 10 running_100_slot_10).
  - reflexivity.
  - reflexivity.
  - reflexivity.
  - right. lia.
Defined.

(** ** Presets and the key router *)

Lemma list_upd_length (a : list Z) (n : nat) (v : Z) :
  length (list_upd a n v) = length a.
Proof.
  revert n. induction a as [|x a IH]; intros [|n]; cbn; try reflexivity.
  now rewrite IH.
Qed.

Lemma arr_set_runs (a : list Z) (i v : Z) :
  0 <= i < Z.of_nat (length a) ->
  arr_set a i v = Some (list_upd a (Z.to_nat i) v).
Proof.
  intros H. unfold arr_set.
  replace ((0 <=? i) && (i <? Z.of_nat (length a))) with true; [reflexivity|].
  symmetry. apply andb_true_iff. split; [apply Z.leb_le | apply Z.ltb_lt]; lia.
Qed.

Lemma arr_get_upd_same (a : list Z) (i v : Z) :
  0 <= i < Z.of_nat (length a) ->
  arr_get (list_upd a (Z.to_nat i) v) i = Some v.
Proof.
  intros H. unfold arr_get. rewrite list_upd_length.
  replace ((0 <=? i) && (i <? Z.of_nat (length a))) with true
    by (symmetry; apply andb_true_iff; split;
        [apply Z.leb_le | apply Z.ltb_lt]; lia).
  assert (Hn : (Z.to_nat i < length a)%nat) by lia.
  generalize dependent (Z.to_nat i). clear. intros n.
  revert n. induction a as [|x a IH]; intros [|n] Hn; cbn in *; try lia.
  - reflexivity.
  - apply IH. lia.
Qed.

(** The page layout: signature, four tempi, four subdivisions, four
    accents, zero padding. *)
Lemma fill_flash_buffer_layout (s : state) :
  length (tempo_presets s) = 4%nat ->
  length (subdiv_presets s) = 4%nat ->
  length (accent_presets s) = 4%nat ->
  fill_flash_buffer s =
  Some (MAGIC_NUMBER ++ tempo_presets s ++ subdiv_presets s ++
        accent_presets s ++ repeat 0 241).
Proof.
  intros Ht Hs Ha. unfold fill_flash_buffer.
  destruct (tempo_presets s) as [|t0 [|t1 [|t2 [|t3 [|]]]]]; try discriminate.
  destruct (subdiv_presets s) as [|d0 [|d1 [|d2 [|d3 [|]]]]]; try discriminate.
  destruct (accent_presets s) as [|a0 [|a1 [|a2 [|a3 [|]]]]]; try discriminate.
  vm_compute. reflexivity.
Qed.

Lemma flash_writes_app (tr1 tr2 : list output) :
  flash_writes (tr1 ++ tr2) = (flash_writes tr1 + flash_writes tr2)%nat.
Proof. unfold flash_writes. rewrite filter_app, length_app. reflexivity. Qed.

(** A save with a tempo set: the slot is written, the page programmed once
    and the scheduler restarted at the tempo it had. *)
Lemma save_preset_runs (c : Z) (s : state) :
  well_formed s -> 0 <= c < 4 -> tempo s <> 0 ->
  exists s',
    save_preset c s = Some s' /\
    long_pressed_release_lock s' = long_pressed_release_lock s /\
    tempo s' = tempo s /\ subdiv s' = subdiv s /\ accent s' = accent s /\
    arr_get (tempo_presets s') c = Some (tempo s) /\
    arr_get (subdiv_presets s') c = Some (subdiv s) /\
    arr_get (accent_presets s') c = Some (Z.b2z (accent s)) /\
    flash_writes (trace s') = S (flash_writes (trace s)).
Proof.
  intros [Ht Hd Lt Ls La] Hc Hz. unfold save_preset.
  destruct (tempo s =? 0) eqn:E; [apply Z.eqb_eq in E; contradiction|].
  unfold andthen.
  rewrite arr_set_runs by lia. cbn [obind]. fields.
  rewrite arr_set_runs by lia. cbn [obind]. fields.
  rewrite arr_set_runs by lia. cbn [obind]. fields.
  rewrite stop_runs. unfold blink, emit, modify, write_flash_presets.
  rewrite fill_flash_buffer_layout
    by (fields; rewrite list_upd_length; assumption).
  cbn [obind]. unfold andthen, emit, modify. fields.
  rewrite set_tempo_runs by (fields; lia).
  eexists. split; [reflexivity|]. fields.
  rewrite !arr_get_upd_same by lia.
  repeat split.
  rewrite !flash_writes_app. cbn. lia.
Qed.

Lemma set_measure_keeps_lock (m : Z) : keeps_lock (set_measure m).
Proof.
  intros s [Ht Hd _ _ _]. rewrite set_measure_unfold.
  destruct ((m <? 1) || (m >? 9)) eqn:E; [eauto|].
  apply orb_false_iff in E. destruct E as [E1 E2].
  apply Z.ltb_ge in E1.
  destruct (tempo s >? 0) eqn:Hp; [|eauto].
  apply Z.gtb_lt in Hp.
  rewrite set_tempo_runs by (fields; lia). eauto.
Qed.

Lemma toggle_accent_keeps_lock : keeps_lock toggle_accent.
Proof. intros s _. eexists. split; reflexivity. Qed.

Lemma skip_keeps_lock : keeps_lock skip.
Proof. intros s _. eexists. split; reflexivity. Qed.

Lemma save_preset_keeps_lock (c : Z) :
  0 <= c < 4 -> keeps_lock (save_preset c).
Proof.
  intros Hc s Hw. destruct (Z.eq_dec (tempo s) 0) as [Hz | Hz].
  - unfold save_preset. rewrite Hz. cbn. eauto.
  - destruct (save_preset_runs c s Hw Hc Hz) as (s' & E & L & _). eauto.
Qed.

Lemma well_formed_locked (b : bool) (s : state) :
  well_formed s -> well_formed (with_long_pressed_release_lock b s).
Proof. intros [? ? ? ? ?]. split; assumption. Qed.

(** Every key but the two adjustment keys dispatches a long press to an
    action that leaves the lock set. *)
Lemma key_long_pressed_dispatch (key : Z) :
  key <> 12 -> key <> 14 ->
  exists p,
    key_long_pressed key =
      (modify (with_long_pressed_release_lock true) ;; p) /\
    keeps_lock p.
Proof.
  intros H12 H14. unfold key_long_pressed.
  destruct key as [|p|p];
    [ | do 4 (try destruct p as [p|p|]) | ];
    try (exfalso; lia);
    (eexists; split; [reflexivity|]);
    auto using set_measure_keeps_lock, toggle_accent_keeps_lock,
      skip_keeps_lock.
  all: apply save_preset_keeps_lock; lia.
Qed.

Lemma letter_long_press_saves (key c : Z) (s s1 : state) :
  key_long_pressed key =
    (modify (with_long_pressed_release_lock true) ;; save_preset c) ->
  0 <= c < 4 -> well_formed s -> tempo s <> 0 ->
  key_long_pressed key s = Some s1 ->
  flash_writes (trace s1) = S (flash_writes (trace s)) /\
  tempo s1 = tempo s /\ subdiv s1 = subdiv s /\ accent s1 = accent s.
Proof.
  intros -> Hc Hw Hz. unfold andthen, modify.
  destruct (save_preset_runs c (with_long_pressed_release_lock true s))
    as (s' & E & _ & T & D & A & _ & _ & _ & F);
    [apply well_formed_locked; exact Hw | exact Hc | exact Hz |].
  rewrite E. intros [= <-]. auto.
Qed.

(** A release that finds the lock clear is processed: it ends with the
    red feedback blink. *)
Lemma key_released_unlocked (key : Z) (s s' : state) :
  long_pressed_release_lock s = false ->
  key_released key s = Some s' ->
  exists tr, trace s' = tr ++ [OutBlink BLINK_DURATION_MS RED].
Proof.
  intros L. unfold key_released. rewrite L. unfold andthen.
  match goal with |- match ?h s with _ => _ end = _ -> _ =>
    destruct (h s) as [s0|] end; [|discriminate].
  unfold blink, emit, modify. intros [= <-]. exists (trace s0). reflexivity.
Qed.

(** C4, as the code has it: for every key other than the two adjustment
    keys 12 and 14, a long press runs its action and leaves the lock set;
    the paired release only clears the lock, performing no release action,
    and the lock being clear again a further release is processed.  For a
    letter key with a tempo set the long press programs the flash page
    exactly once, and after the paired release the live tempo, subdivision
    and accent are those from before: no preset was applied.  (With tempo
    0 [save_preset] returns at once.)  The hold handlers of keys 12 and 14
    clear the lock themselves, so that their release is processed and
    cancels the auto-repeat timer. *)
Theorem long_press_release_swallowed (key : Z) (s : state) :
  well_formed s -> key <> 12 -> key <> 14 ->
  exists s1,
    key_long_pressed key s = Some s1 /\
    long_pressed_release_lock s1 = true /\
    key_released key s1 = Some (with_long_pressed_release_lock false s1) /\
    (forall s3,
       key_released key (with_long_pressed_release_lock false s1) = Some s3 ->
       exists tr, trace s3 = tr ++ [OutBlink BLINK_DURATION_MS RED]) /\
    (key = 3 \/ key = 7 \/ key = 11 \/ key = 15 -> tempo s <> 0 ->
     flash_writes (trace s1) = S (flash_writes (trace s)) /\
     tempo s1 = tempo s /\ subdiv s1 = subdiv s /\ accent s1 = accent s).
Proof.
  intros Hw H12 H14.
  destruct (key_long_pressed_dispatch key H12 H14) as (p & Ep & Kp).
  destruct (Kp _ (well_formed_locked true s Hw)) as (s1 & E1 & L1).
  cbn in L1.
  assert (E : key_long_pressed key s = Some s1).
  { rewrite Ep. unfold andthen, modify. exact E1. }
  exists s1. split; [exact E|]. split; [exact L1|]. split; [|split].
  - unfold key_released. rewrite L1. reflexivity.
  - intros s3. apply key_released_unlocked. reflexivity.
  - intros Hk Hz.
    destruct Hk as [-> | [-> | [-> | ->]]].
    + apply (letter_long_press_saves 3 0 s s1); auto; lia.
    + apply (letter_long_press_saves 7 1 s s1); auto; lia.
    + apply (letter_long_press_saves 11 2 s s1); auto; lia.
    + apply (letter_long_press_saves 15 3 s s1); auto; lia.
Qed.

Lemma long_press_release_swallowed_witness :
  well_formed running_100 /\ 3 <> 12 /\ 3 <> 14 /\
  exists s1,
    key_long_pressed 3 running_100 = Some s1 /\
    long_pressed_release_lock s1 = true /\
    key_released 3 s1 = Some (with_long_pressed_release_lock false s1) /\
    (forall s3,
       key_released 3 (with_long_pressed_release_lock false s1) = Some s3 ->
       exists tr, trace s3 = tr ++ [OutBlink BLINK_DURATION_MS RED]) /\
    (3 = 3 \/ 3 = 7 \/ 3 = 11 \/ 3 = 15 -> tempo running_100 <> 0 ->
     flash_writes (trace s1) = S (flash_writes (trace running_100)) /\
     tempo s1 = tempo running_100 /\ subdiv s1 = subdiv running_100 /\
     accent s1 = accent running_100).
Proof.
  assert (W : well_formed running_100).
  { split; vm_compute; try reflexivity; split; discriminate. }
  split; [exact W|]. split; [discriminate|]. split; [discriminate|].
  apply (long_press_release_swallowed 3 running_100 W); discriminate.
Defined.

(** C4 as stated fails for the adjustment keys: [decrease_tempo_hold]
    clears the lock, and the release that follows the long press of key 12
    is processed: it cancels the auto-repeat timer and blinks red. *)
Lemma adjustment_key_release_is_processed :
  observe (fun s => (long_pressed_release_lock s, tempo_change s, trace s))
    (key_long_pressed 12 fresh) = Some (false, Some CbDecreaseTempo, []) /\
  observe (fun s => (long_pressed_release_lock s, tempo_change s, trace s))
    ((key_long_pressed 12 ;; key_released 12) fresh)
  = Some (false, None, [OutBlink 100 RED]).
Proof. split; vm_compute; reflexivity. Qed.

(** ** The scheduler invariant, step by step *)

Lemma preserves_skip : preserves skip.
Proof. intros s s' H [= E]; subst s'. exact H. Qed.

Lemma preserves_andthen (p q : proc) :
  preserves p -> preserves q -> preserves (p ;; q).
Proof.
  intros Hp Hq s s' H. unfold andthen.
  destruct (p s) as [s1|] eqn:E; [|discriminate].
  intros E'. exact (Hq s1 s' (Hp s s1 H E) E').
Qed.

(** An update that leaves the subdivision, the tick counter and the beat
    timer alone. *)
Lemma preserves_frame (f : state -> state) :
  (forall s, subdiv (f s) = subdiv s /\ ticks (f s) = ticks s /\
             metronome (f s) = metronome s) ->
  preserves (modify f).
Proof.
  intros Hf s s' [Hd Ht] [= E]; subst s'. unfold scheduler_inv.
  destruct (Hf s) as (-> & -> & ->). split; assumption.
Qed.

Lemma scheduler_inv_stopped (s : state) :
  1 <= subdiv s <= 9 -> scheduler_inv (stopped s).
Proof. intros H. split; [exact H|]. fields. congruence. Qed.

Lemma preserves_set_tempo (t : Z) : preserves (set_tempo t).
Proof.
  intros s s' [Hd Ht]. destruct (Z_lt_dec t 1) as [Hlt | Hge].
  - rewrite set_tempo_ignores_zero by exact Hlt.
    intros [= E]; subst s'. split; assumption.
  - rewrite set_tempo_runs by lia. intros [= E]; subst s'. split; fields; lia.
Qed.

Lemma next_ticks_bound (s : state) :
  1 <= subdiv s -> 0 <= next_ticks s < subdiv s.
Proof.
  intros Hd. unfold next_ticks.
  destruct (u8 (ticks s + 1) >=? subdiv s) eqn:E; [lia|].
  rewrite Z.geb_leb in E. apply Z.leb_gt in E.
  split; [|exact E]. unfold u8. apply Z.mod_pos_bound. reflexivity.
Qed.

Lemma preserves_tick : preserves tick.
Proof.
  intros s s' [Hd Ht]. rewrite tick_unfold.
  assert (Hp : scheduler_inv (pulsed s)).
  { split; [exact Hd|]. intros _. unfold pulsed. fields.
    apply next_ticks_bound. lia. }
  destruct (recalc_interval s).
  - destruct (tempo s >? 0).
    + destruct (set_tempo _ _) as [s1|] eqn:E; [|discriminate].
      intros [= E']; subst s'.
      apply (preserves_set_tempo _ _ _
               (scheduler_inv_stopped _ (proj1 Hp))) in E.
      destruct E as [E1 E2]. split; assumption.
    + intros [= E']; subst s'.
      destruct (scheduler_inv_stopped _ (proj1 Hp)) as [E1 E2].
      split; assumption.
  - intros [= E']; subst s'. exact Hp.
Qed.

(** ** The scheduler invariant over every run *)

Lemma preserves_increase_tempo : preserves increase_tempo.
Proof.
  intros s s' [Hd Ht]. rewrite increase_tempo_unfold.
  intros [= E]; subst s'. destruct (tempo s >? 0); split; assumption.
Qed.

Lemma preserves_decrease_tempo : preserves decrease_tempo.
Proof.
  intros s s' [Hd Ht]. rewrite decrease_tempo_unfold.
  intros [= E]; subst s'. destruct (tempo s <? 256); split; assumption.
Qed.

Lemma preserves_set_measure (m : Z) : preserves (set_measure m).
Proof.
  intros s s' H. rewrite set_measure_unfold.
  destruct ((m <? 1) || (m >? 9)) eqn:E; [intros [= E']; subst s'; exact H|].
  apply orb_false_iff in E. destruct E as [E1 E2].
  apply Z.ltb_ge in E1. rewrite Z.gtb_ltb in E2. apply Z.ltb_ge in E2.
  assert (Hs : scheduler_inv (stopped (with_subdiv m s)))
    by (apply scheduler_inv_stopped; fields; lia).
  destruct (tempo s >? 0).
  - apply preserves_set_tempo. exact Hs.
  - intros [= E']; subst s'. exact Hs.
Qed.

Lemma preserves_type_tempo (n : Z) : preserves (type_tempo n).
Proof.
  intros s s' [Hd _]. rewrite type_tempo_unfold. cbn zeta.
  assert (Hs : forall p, scheduler_inv (typed p s)).
  { intros p. split; [exact Hd|]. fields. congruence. }
  destruct (_ && _).
  - apply preserves_set_tempo, Hs.
  - intros [= E']; subst s'. apply Hs.
Qed.

Lemma preserves_tap : preserves tap.
Proof.
  intros s s' [Hd _]. rewrite tap_unfold. cbn zeta.
  destruct (_ >? 1).
  - destruct (interval_to_bpm _) as [t|]; [|discriminate]. cbn [obind].
    destruct (set_tempo _ _) as [s1|] eqn:E; [|discriminate].
    intros [= E']; subst s'.
    apply preserves_set_tempo in E.
    + destruct E as [E1 E2]. split; assumption.
    + split; [exact Hd|]. fields. congruence.
  - intros [= E']; subst s'. split; [exact Hd|]. fields. congruence.
Qed.

Lemma preserves_save_preset (c : Z) : preserves (save_preset c).
Proof.
  intros s s' [Hd Ht]. unfold save_preset.
  destruct (tempo s =? 0); [intros [= E]; subst s'; split; assumption|].
  unfold andthen.
  destruct (arr_set (tempo_presets s) c (tempo s)) as [tp|]; [|discriminate].
  cbn [obind]. fields.
  destruct (arr_set (subdiv_presets s) c (subdiv s)) as [sp|]; [|discriminate].
  cbn [obind]. fields.
  destruct (arr_set (accent_presets s) c (Z.b2z (accent s))) as [ap|];
    [|discriminate].
  cbn [obind]. rewrite stop_runs.
  unfold blink, emit, modify, write_flash_presets.
  destruct (fill_flash_buffer _) as [buf|]; [|discriminate].
  cbn [obind]. unfold andthen, emit, modify. fields.
  apply preserves_set_tempo. split; [exact Hd|]. fields. congruence.
Qed.

Lemma preserves_apply_preset (c : Z) : preserves (apply_preset c).
Proof.
  intros s s' [Hd Ht]. unfold apply_preset, andthen.
  destruct (arr_get (tempo_presets s) c) as [t|]; [|discriminate].
  cbn [obind]. fields.
  destruct (arr_get (accent_presets s) c) as [a|]; [|discriminate].
  cbn [obind]. fields.
  destruct (arr_get (subdiv_presets s) c) as [m|]; [|discriminate].
  cbn [obind]. apply preserves_set_measure. split; assumption.
Qed.

Ltac frame := apply preserves_frame; intros ?; repeat split; reflexivity.

Lemma preserves_key_pressed (key : Z) : preserves (key_pressed key).
Proof.
  unfold key_pressed. apply preserves_andthen; [frame|].
  destruct key as [|p|p];
    [ | do 4 (try destruct p as [p|p|]) | ];
    auto using preserves_skip, preserves_increase_tempo,
      preserves_decrease_tempo.
Qed.

Lemma preserves_key_long_pressed (key : Z) : preserves (key_long_pressed key).
Proof.
  unfold key_long_pressed. apply preserves_andthen; [frame|].
  destruct key as [|p|p];
    [ | do 4 (try destruct p as [p|p|]) | ];
    auto using preserves_skip, preserves_set_measure, preserves_save_preset.
  all: try (unfold toggle_accent; frame).
  all: unfold decrease_tempo_hold, increase_tempo_hold;
    repeat apply preserves_andthen; frame.
Qed.

Lemma preserves_zero_key : preserves
  (fun s => if tempo_prompt s >? 0 then type_tempo 0 s else tap s).
Proof.
  intros s s' H. destruct (tempo_prompt s >? 0).
  - apply preserves_type_tempo. exact H.
  - apply preserves_tap. exact H.
Qed.

Lemma preserves_key_released (key : Z) : preserves (key_released key).
Proof.
  intros s s' H. unfold key_released.
  destruct (long_pressed_release_lock s).
  - intros [= E]; subst s'. destruct H. split; assumption.
  - refine (preserves_andthen _ _ _ _ s s' H); [|unfold blink, emit; frame].
    destruct key as [|p|p];
      [ | do 4 (try destruct p as [p|p|]) | ];
      auto using preserves_skip, preserves_type_tempo,
        preserves_apply_preset, preserves_zero_key.
    all: frame.
Qed.

Lemma preserves_metronome_fire : preserves metronome_fire.
Proof.
  intros s s' H. unfold metronome_fire. destruct (metronome s).
  - apply preserves_tick. exact H.
  - apply preserves_skip. exact H.
Qed.

Lemma preserves_tempo_change_fire : preserves tempo_change_fire.
Proof.
  intros s s' H. unfold tempo_change_fire.
  destruct (tempo_change s) as [[|]|].
  - apply preserves_increase_tempo. exact H.
  - apply preserves_decrease_tempo. exact H.
  - apply preserves_skip. exact H.
Qed.

Lemma preserves_handle (e : event) : preserves (handle e).
Proof.
  destruct e; cbn [handle];
    auto using preserves_key_pressed, preserves_key_long_pressed,
      preserves_key_released, preserves_metronome_fire,
      preserves_tempo_change_fire.
  - unfold input_timeout. frame.
  - unfold tap_timeout. frame.
  - unfold at_time. frame.
  - frame.
Qed.

Lemma preserves_load_slot (b : Z -> Z) (i : Z) : preserves
  (fun s =>
     let? tp := arr_set (tempo_presets s) i (b (MAGIC_NUMBER_LENGTH + i)) in
     let? sp := arr_set (subdiv_presets s) i
                  (b (MAGIC_NUMBER_LENGTH + i + 4)) in
     let? ap := arr_set (accent_presets s) i
                  (b (MAGIC_NUMBER_LENGTH + i + 8)) in
     Some (with_accent_presets ap
             (with_subdiv_presets sp (with_tempo_presets tp s)))).
Proof.
  intros s s' [Hd Ht].
  destruct (arr_set (tempo_presets s) i _) as [tp|]; [|discriminate].
  cbn [obind].
  destruct (arr_set (subdiv_presets s) i _) as [sp|]; [|discriminate].
  cbn [obind].
  destruct (arr_set (accent_presets s) i _) as [ap|]; [|discriminate].
  cbn [obind]. intros [= E]; subst s'. split; assumption.
Qed.

Lemma preserves_for_each (l : list Z) (body : Z -> proc) :
  (forall i, preserves (body i)) -> preserves (for_each l body).
Proof.
  intros Hb. induction l as [|i l IH]; cbn [for_each].
  - exact preserves_skip.
  - apply preserves_andthen; [apply Hb | exact IH].
Qed.

Lemma preserves_read_flash_presets : preserves read_flash_presets.
Proof.
  intros s s' H. unfold read_flash_presets.
  destruct (negb _); [|apply preserves_skip; exact H].
  refine (preserves_for_each _ _ _ s s' H).
  intros i. apply preserves_load_slot.
Qed.

(** Whatever page the flash holds and whatever happens afterwards, the
    subdivision stays in 1..9 and, while the beat timer is armed, the tick
    counter stays below the subdivision. *)
Theorem scheduler_invariant
  (page : list Z) (now : Z) (sw : bool) (es : list event) (s0 s : state) :
  main_init page now sw = Some s0 ->
  run es s0 = Some s ->
  scheduler_inv s.
Proof.
  intros H0 Hr.
  assert (I0 : scheduler_inv s0).
  { apply (preserves_read_flash_presets (boot page now sw) s0); [|exact H0].
    split; [cbn; lia|]. cbn. congruence. }
  clear H0. revert s0 I0 Hr. induction es as [|e es IH]; intros s0 I0.
  - intros [= E]; subst s. exact I0.
  - cbn [run fold_right]. fold (run es). unfold andthen.
    destruct (handle e s0) as [s1|] eqn:E; [|discriminate].
    apply IH. exact (preserves_handle e s0 s1 I0 E).
Qed.

(** ** The firmware invariant, step by step *)

Lemma keeps_skip : keeps skip.
Proof. intros s s' H [= E]; subst s'. exact H. Qed.

Lemma keeps_andthen (p q : proc) : keeps p -> keeps q -> keeps (p ;; q).
Proof.
  intros Hp Hq s s' H. unfold andthen.
  destruct (p s) as [s1|] eqn:E; [|discriminate].
  intros E'. exact (Hq s1 s' (Hp s s1 H E) E').
Qed.

Lemma firmware_inv_stopped (s : state) :
  firmware_inv s -> firmware_inv (stopped s).
Proof. intros H. reinv H. left. split; reflexivity. Qed.

Lemma delay_bounds (t d : Z) :
  1 <= t <= 255 -> 1 <= d <= 9 ->
  26143 <= 60000000 / t / d <= 60000000.
Proof.
  intros Ht Hd.
  assert (Hq : 235294 <= 60000000 / t <= 60000000).
  { split; [apply Z.div_le_lower_bound; lia
           | apply Z.div_le_upper_bound; lia]. }
  split.
  - apply Z.div_le_lower_bound; lia.
  - apply Z.div_le_upper_bound; nia.
Qed.

Lemma firmware_inv_started (t : Z) (s : state) :
  1 <= t <= 255 -> firmware_inv s -> firmware_inv (started t s).
Proof.
  intros Hr H. reinv H. right. eexists. split; [reflexivity|].
  split; [reflexivity|]. rewrite timer_delay by lia.
  pose proof (delay_bounds t (subdiv s) Hr Hd). lia.
Qed.

Lemma keeps_set_tempo (t : Z) : t <= 255 -> keeps (set_tempo t).
Proof.
  intros Hr s s' H. destruct (Z_lt_dec t 1) as [Hlt | Hge].
  - rewrite set_tempo_ignores_zero by exact Hlt.
    intros [= E]; subst s'. exact H.
  - rewrite set_tempo_runs by (destruct H; lia).
    intros [= E]; subst s'. apply firmware_inv_started; [lia | exact H].
Qed.

Lemma u8_range (x : Z) : 0 <= u8 x <= 255.
Proof. unfold u8. pose proof (Z.mod_pos_bound x (2 ^ 8) eq_refl). lia. Qed.

Lemma u16_range (x : Z) : 0 <= u16 x < 2 ^ 16.
Proof. unfold u16. apply Z.mod_pos_bound. reflexivity. Qed.

Lemma u64_range (x : Z) : 0 <= u64 x < 2 ^ 64.
Proof. unfold u64. apply Z.mod_pos_bound. reflexivity. Qed.

Lemma firmware_inv_pulsed (s : state) :
  firmware_inv s -> firmware_inv (pulsed s).
Proof.
  intros H. pose proof (next_ticks_bound s) as Hb. unfold pulsed.
  reinv H. destruct Hm as [Hm | (d & E & P & D & T)]; [left; exact Hm|].
  right. exists d. repeat split; try assumption; try lia.
Qed.

Lemma keeps_tick : keeps tick.
Proof.
  intros s s' H. rewrite tick_unfold.
  pose proof (firmware_inv_stopped _ (firmware_inv_pulsed s H)) as Hs.
  destruct (recalc_interval s).
  - destruct (tempo s >? 0).
    + destruct (set_tempo _ _) as [s1|] eqn:E; [|discriminate].
      intros [= E']; subst s'.
      apply keeps_set_tempo in E; [|destruct H; lia | exact Hs].
      reinv E.
    + intros [= E']; subst s'. reinv Hs.
  - intros [= E']; subst s'. apply firmware_inv_pulsed. exact H.
Qed.

Lemma keeps_increase_tempo : keeps increase_tempo.
Proof.
  intros s s' H. rewrite increase_tempo_unfold. intros [= E]; subst s'.
  destruct (tempo s >? 0) eqn:C; [apply Z.gtb_lt in C|]; reinv H.
Qed.

Lemma keeps_decrease_tempo : keeps decrease_tempo.
Proof.
  intros s s' H. rewrite decrease_tempo_unfold. intros [= E]; subst s'.
  pose proof (u8_range (tempo s + 1)).
  destruct (tempo s <? 256); reinv H.
Qed.

Lemma keeps_set_measure (m : Z) : keeps (set_measure m).
Proof.
  intros s s' H. rewrite set_measure_unfold.
  destruct ((m <? 1) || (m >? 9)) eqn:E; [intros [= E']; subst s'; exact H|].
  apply orb_false_iff in E. destruct E as [E1 E2].
  apply Z.ltb_ge in E1. rewrite Z.gtb_ltb in E2. apply Z.ltb_ge in E2.
  assert (Hs : firmware_inv (stopped (with_subdiv m s))).
  { reinv H. left. split; reflexivity. }
  destruct (tempo s >? 0).
  - apply keeps_set_tempo; [destruct H; lia | exact Hs].
  - intros [= E']; subst s'. exact Hs.
Qed.

Lemma keeps_type_tempo (n : Z) : keeps (type_tempo n).
Proof.
  intros s s' H. rewrite type_tempo_unfold. cbn zeta.
  set (p := u16 (u16 (tempo_prompt s * 10) + n)).
  assert (Hs : firmware_inv (typed p s)).
  { pose proof (u16_range (u16 (tempo_prompt s * 10) + n)). fold p in H0.
    reinv H. left. split; reflexivity. }
  destruct (_ && _).
  - apply keeps_set_tempo; [apply u8_range | exact Hs].
  - intros [= E']; subst s'. exact Hs.
Qed.

Lemma halved_range (x : Z) : 0 <= u64 x / 2 < 2 ^ 63.
Proof.
  pose proof (u64_range x) as H. split.
  - apply Z.div_pos; lia.
  - apply Z.div_lt_upper_bound; lia.
Qed.

Lemma keeps_tap : keeps tap.
Proof.
  intros s s' H. rewrite tap_unfold. cbn zeta.
  pose proof (u8_range (num_taps s + 1)) as Hn'.
  destruct (_ >? 1).
  - destruct (interval_to_bpm _) as [t|] eqn:Et; [|discriminate].
    cbn [obind].
    destruct (set_tempo _ _) as [s1|] eqn:E; [|discriminate].
    intros [= E']; subst s'.
    pose proof (halved_range (tap_interval_avg s +
                              u64 (time_us_64 s - last_tap s))) as Hh.
    assert (Ht' : t <= 255).
    { unfold interval_to_bpm in Et. destruct (_ =? 0); [discriminate|].
      injection Et as <-. apply u8_range. }
    apply keeps_set_tempo in E; [reinv E | exact Ht' |].
    reinv H. left. split; reflexivity.
  - intros [= E']; subst s'. reinv H. left. split; reflexivity.
Qed.

Lemma Forall_list_upd (P : Z -> Prop) (a : list Z) (n : nat) (v : Z) :
  Forall P a -> P v -> Forall P (list_upd a n v).
Proof.
  intros Ha Hv. revert n. induction Ha as [|x a Hx Ha IH]; intros [|n]; cbn;
    constructor; auto.
Qed.

Lemma arr_set_inv (a a' : list Z) (i v : Z) :
  arr_set a i v = Some a' -> a' = list_upd a (Z.to_nat i) v.
Proof.
  unfold arr_set. destruct (_ && _); [|discriminate]. intros [= E]. auto.
Qed.

Lemma arr_get_in (P : Z -> Prop) (a : list Z) (i v : Z) :
  Forall P a -> arr_get a i = Some v -> P v.
Proof.
  intros Ha. unfold arr_get. destruct (_ && _); [|discriminate].
  intros E. apply nth_error_In in E. rewrite Forall_forall in Ha. auto.
Qed.

Lemma keeps_save_preset (c : Z) : keeps (save_preset c).
Proof.
  intros s s' H. unfold save_preset.
  destruct (tempo s =? 0) eqn:Ez; [intros [= E]; subst s'; exact H|].
  apply Z.eqb_neq in Ez. unfold andthen.
  destruct (arr_set (tempo_presets s) c (tempo s)) as [tp|] eqn:E1;
    [|discriminate].
  cbn [obind]. fields.
  destruct (arr_set (subdiv_presets s) c (subdiv s)) as [sp|] eqn:E2;
    [|discriminate].
  cbn [obind]. fields.
  destruct (arr_set (accent_presets s) c (Z.b2z (accent s))) as [ap|] eqn:E3;
    [|discriminate].
  cbn [obind]. rewrite stop_runs.
  unfold blink, emit, modify, write_flash_presets.
  destruct (fill_flash_buffer _) as [buf|]; [|discriminate].
  cbn [obind]. unfold andthen, emit, modify. fields.
  apply arr_set_inv in E1, E2, E3. subst tp sp ap.
  apply keeps_set_tempo; [destruct H; lia|].
  destruct H as [Ht Hd Hp Hn Ha (L1 & L2 & L3 & F1 & F2 & F3) Hm].
  split; unfold valid_presets, timer_state; fields; try assumption.
  - rewrite !list_upd_length.
    repeat split; try assumption; apply Forall_list_upd; try assumption;
      try lia.
    destruct (accent s); cbn; lia.
  - left. split; reflexivity.
Qed.

Lemma keeps_apply_preset (c : Z) : keeps (apply_preset c).
Proof.
  intros s s' H. unfold apply_preset, andthen.
  destruct (arr_get (tempo_presets s) c) as [t|] eqn:E1; [|discriminate].
  cbn [obind]. fields.
  destruct (arr_get (accent_presets s) c) as [a|]; [|discriminate].
  cbn [obind]. fields.
  destruct (arr_get (subdiv_presets s) c) as [m|]; [|discriminate].
  cbn [obind]. apply keeps_set_measure.
  assert (Ht' : 1 <= t <= 255).
  { destruct H as [_ _ _ _ _ (_ & _ & _ & F1 & _) _].
    exact (arr_get_in _ _ _ _ F1 E1). }
  reinv H.
Qed.

Lemma keeps_key_pressed (key : Z) : keeps (key_pressed key).
Proof.
  unfold key_pressed. apply keeps_andthen; [unfold modify; frame_inv|].
  destruct key as [|p|p];
    [ | do 4 (try destruct p as [p|p|]) | ];
    auto using keeps_skip, keeps_increase_tempo, keeps_decrease_tempo.
Qed.

Lemma keeps_key_long_pressed (key : Z) : keeps (key_long_pressed key).
Proof.
  unfold key_long_pressed. apply keeps_andthen; [unfold modify; frame_inv|].
  destruct key as [|p|p];
    [ | do 4 (try destruct p as [p|p|]) | ];
    auto using keeps_skip, keeps_set_measure, keeps_save_preset.
  all: try (unfold toggle_accent, modify; frame_inv).
  all: unfold decrease_tempo_hold, increase_tempo_hold, modify;
    repeat apply keeps_andthen; frame_inv.
Qed.

Lemma keeps_zero_key : keeps
  (fun s => if tempo_prompt s >? 0 then type_tempo 0 s else tap s).
Proof.
  intros s s' H. destruct (tempo_prompt s >? 0).
  - apply keeps_type_tempo. exact H.
  - apply keeps_tap. exact H.
Qed.

Lemma keeps_key_released (key : Z) : keeps (key_released key).
Proof.
  intros s s' H. unfold key_released.
  destruct (long_pressed_release_lock s).
  - intros [= E]; subst s'. reinv H.
  - refine (keeps_andthen _ _ _ _ s s' H);
      [|unfold blink, emit, modify; frame_inv].
    destruct key as [|p|p];
      [ | do 4 (try destruct p as [p|p|]) | ];
      auto using keeps_skip, keeps_type_tempo, keeps_apply_preset,
        keeps_zero_key.
    all: unfold modify; frame_inv.
Qed.

Lemma keeps_handle (e : event) : keeps (handle e).
Proof.
  destruct e; cbn [handle];
    auto using keeps_key_pressed, keeps_key_long_pressed, keeps_key_released.
  - intros s s' H. unfold metronome_fire. destruct (metronome s).
    + apply keeps_tick. exact H.
    + apply keeps_skip. exact H.
  - intros s s' H. unfold tempo_change_fire.
    destruct (tempo_change s) as [[|]|].
    + apply keeps_increase_tempo. exact H.
    + apply keeps_decrease_tempo. exact H.
    + apply keeps_skip. exact H.
  - unfold input_timeout, modify. frame_inv.
  - unfold tap_timeout, modify. frame_inv.
  - unfold at_time, modify. frame_inv.
  - unfold modify. frame_inv.
Qed.

Lemma keeps_run (es : list event) : keeps (run es).
Proof.
  induction es as [|e es IH]; cbn [run fold_right].
  - exact keeps_skip.
  - apply keeps_andthen; [apply keeps_handle | exact IH].
Qed.

(** ** Startup *)

Lemma main_init_cases (page : list Z) (now : Z) (sw : bool) :
  main_init page now sw =
  Some (if invalid_data (flash_byte page)
        then boot page now sw else loaded page now sw).
Proof.
  unfold main_init, read_flash_presets.
  change (flash (boot page now sw)) with page.
  destruct (invalid_data (flash_byte page)); reflexivity.
Qed.

Lemma flash_byte_range (page : list Z) (i : Z) :
  bytes page -> 0 <= flash_byte page i <= 255.
Proof.
  intros H. unfold flash_byte.
  destruct (nth_in_or_default (Z.to_nat i) page 255) as [Hin | ->]; [|lia].
  unfold bytes in H. rewrite Forall_forall in H. auto.
Qed.

Lemma firmware_inv_boot (page : list Z) (now : Z) (sw : bool) :
  firmware_inv (boot page now sw).
Proof.
  split; cbn; try lia.
  - unfold valid_presets. cbn.
    repeat split; repeat constructor; lia.
  - left. split; reflexivity.
Qed.

Lemma firmware_inv_main_init
  (page : list Z) (now : Z) (sw : bool) (s0 : state) :
  bytes page -> main_init page now sw = Some s0 -> firmware_inv s0.
Proof.
  intros Hb. rewrite main_init_cases. intros [= E]; subst s0.
  destruct (invalid_data (flash_byte page)) eqn:V;
    [apply firmware_inv_boot|].
  assert (N : ~ block_violation (flash_byte page)).
  { intros C. apply invalid_data_spec in C. congruence. }
  assert (R : forall i, 0 <= i < 4 ->
            1 <= flash_byte page (MAGIC_NUMBER_LENGTH + i) <= 255 /\
            1 <= flash_byte page (MAGIC_NUMBER_LENGTH + i + 4) <= 10 /\
            0 <= flash_byte page (MAGIC_NUMBER_LENGTH + i + 8) <= 1).
  { intros i Hi.
    pose proof (flash_byte_range page (MAGIC_NUMBER_LENGTH + i + 8) Hb).
    repeat split; try lia.
    all: apply Z.nlt_ge || apply Z.le_ngt; intros C; apply N.
    - right. left. exists i. split; [exact Hi | left; lia].
    - right. left. exists i. split; [exact Hi | right; lia].
    - right. right. left. exists i. split; [exact Hi | left; lia].
    - right. right. left. exists i. split; [exact Hi | right; lia].
    - right. right. right. exists i. split; [exact Hi | lia]. }
  pose proof (R 0 ltac:(lia)). pose proof (R 1 ltac:(lia)).
  pose proof (R 2 ltac:(lia)). pose proof (R 3 ltac:(lia)).
  clear R N V. split; cbn in *; try lia.
  - unfold valid_presets. cbn.
    repeat split; repeat constructor; lia.
  - left. split; reflexivity.
Qed.

Lemma firmware_inv_fresh : firmware_inv fresh.
Proof. apply firmware_inv_boot. Qed.

Lemma firmware_inv_running_100 : firmware_inv running_100.
Proof.
  apply (keeps_set_tempo 100 ltac:(lia) fresh running_100 firmware_inv_fresh).
  vm_compute. reflexivity.
Qed.

Lemma bytes_page_saved : bytes page_saved.
Proof. unfold bytes, page_saved. repeat constructor; lia. Qed.

Lemma valid_presets_fresh : valid_presets fresh.
Proof. exact (inv_presets _ firmware_inv_fresh). Qed.

(** ** Every handler is defined on the invariant *)

Lemma inv_well_formed (s : state) : firmware_inv s -> well_formed s.
Proof.
  intros [Ht Hd _ _ _ (L1 & L2 & L3 & _) _]. split; assumption.
Qed.

Lemma set_tempo_defined (t : Z) (s : state) :
  subdiv s <> 0 -> exists s', set_tempo t s = Some s'.
Proof.
  intros Hd. destruct (Z_lt_dec t 1) as [Hlt | Hge].
  - rewrite set_tempo_ignores_zero by exact Hlt. eauto.
  - rewrite set_tempo_runs by lia. eauto.
Qed.

Lemma tick_defined (s : state) :
  subdiv s <> 0 -> exists s', tick s = Some s'.
Proof.
  intros Hd. rewrite tick_unfold. destruct (recalc_interval s); [|eauto].
  destruct (tempo s >? 0); [|eauto].
  destruct (set_tempo_defined (tempo s) (stopped (pulsed s)) Hd) as [s' ->].
  cbn. eauto.
Qed.

Lemma type_tempo_defined (n : Z) (s : state) :
  subdiv s <> 0 -> exists s', type_tempo n s = Some s'.
Proof.
  intros Hd. rewrite type_tempo_unfold. cbn zeta.
  destruct (_ && _); [|eauto]. apply set_tempo_defined. exact Hd.
Qed.

Lemma set_measure_defined (m : Z) (s : state) :
  exists s', set_measure m s = Some s'.
Proof.
  rewrite set_measure_unfold.
  destruct ((m <? 1) || (m >? 9)) eqn:E; [eauto|].
  apply orb_false_iff in E. destruct E as [E1 _]. apply Z.ltb_ge in E1.
  destruct (tempo s >? 0); [|eauto].
  apply set_tempo_defined. fields. lia.
Qed.

Lemma save_preset_defined (c : Z) (s : state) :
  firmware_inv s -> 0 <= c < 4 -> exists s', save_preset c s = Some s'.
Proof.
  intros H Hc. destruct (Z.eq_dec (tempo s) 0) as [Hz | Hz].
  - unfold save_preset. rewrite Hz. cbn. eauto.
  - destruct (save_preset_runs c s (inv_well_formed s H) Hc Hz)
      as (s' & E & _). eauto.
Qed.

Lemma arr_get_defined (a : list Z) (i : Z) :
  0 <= i < Z.of_nat (length a) -> exists v, arr_get a i = Some v.
Proof.
  intros H. unfold arr_get.
  replace ((0 <=? i) && (i <? Z.of_nat (length a))) with true
    by (symmetry; apply andb_true_iff; split;
        [apply Z.leb_le | apply Z.ltb_lt]; lia).
  destruct (nth_error a (Z.to_nat i)) as [v|] eqn:E; [eauto|].
  apply nth_error_None in E. lia.
Qed.

Lemma apply_preset_defined (c : Z) (s : state) :
  firmware_inv s -> 0 <= c < 4 -> exists s', apply_preset c s = Some s'.
Proof.
  intros [_ _ _ _ _ (L1 & L2 & L3 & _) _] Hc. unfold apply_preset, andthen.
  destruct (arr_get_defined (tempo_presets s) c) as [t ->]; [lia|].
  cbn [obind]. fields.
  destruct (arr_get_defined (accent_presets s) c) as [a ->]; [lia|].
  cbn [obind]. fields.
  destruct (arr_get_defined (subdiv_presets s) c) as [m ->]; [lia|].
  cbn [obind]. apply set_measure_defined.
Qed.

(** [tap] runs unless the new average is 0. *)
Lemma tap_defined (s : state) :
  subdiv s <> 0 ->
  u64 (tap_interval_avg s + u64 (time_us_64 s - last_tap s)) / 2 <> 0 ->
  exists s', tap s = Some s'.
Proof.
  intros Hd Ha. rewrite tap_unfold. cbn zeta.
  destruct (_ >? 1); [|eauto].
  unfold interval_to_bpm.
  destruct (_ =? 0) eqn:E; [apply Z.eqb_eq in E; contradiction|].
  cbn [obind].
  match goal with |- context [set_tempo ?t ?s0] =>
    destruct (set_tempo_defined t s0) as [s' ->]; [exact Hd|] end.
  cbn. eauto.
Qed.

Lemma blink_after (p : proc) (s : state) (ms : Z) (c : color) :
  (exists s', p s = Some s') -> exists s', (p ;; blink ms c) s = Some s'.
Proof.
  intros [s' E]. unfold andthen. rewrite E.
  unfold blink, emit, modify. eauto.
Qed.

(** On a state of the invariant every event is handled without undefined
    behaviour, a release of key 13 included once two microseconds have
    passed since the last tap. *)
Theorem handle_defined (e : event) (s : state) :
  firmware_inv s ->
  (e = KeyReleased 13 -> 2 <= time_us_64 s - last_tap s < 2 ^ 63) ->
  exists s', handle e s = Some s'.
Proof.
  intros H Htap.
  assert (Hd : subdiv s <> 0) by (destruct H; lia).
  destruct e as [key | key | key | | | | | t | b]; cbn [handle].
  - unfold key_pressed, andthen, modify.
    destruct key as [|p|p];
      [ | do 4 (try destruct p as [p|p|]) | ];
      rewrite ?increase_tempo_unfold, ?decrease_tempo_unfold; cbn; eauto.
  - unfold key_long_pressed, andthen, modify.
    assert (H' : firmware_inv (with_long_pressed_release_lock true s))
      by (clear Htap Hd; reinv H).
    destruct key as [|p|p];
      [ | do 4 (try destruct p as [p|p|]) | ];
      try apply set_measure_defined;
      try (apply save_preset_defined; [exact H' | lia]);
      cbn; eauto.
    all: unfold toggle_accent, modify; eauto.
  - unfold key_released. destruct (long_pressed_release_lock s); [eauto|].
    destruct key as [|p|p];
      [ | do 4 (try destruct p as [p|p|]) | ];
      apply blink_after;
      try (apply type_tempo_defined; exact Hd);
      try (apply apply_preset_defined; [exact H | lia]);
      try (unfold modify, skip; eauto; fail).
    destruct (tempo_prompt s >? 0);
      [apply type_tempo_defined; exact Hd|].
    apply tap_defined; [exact Hd|].
    specialize (Htap eq_refl). destruct H as [_ _ _ _ Ha _ _].
    rewrite (u64_small (time_us_64 s - last_tap s)) by lia.
    rewrite u64_small by lia.
    intros C. apply Z.div_small_iff in C; lia.
  - unfold metronome_fire. destruct (metronome s); [|eauto].
    apply tick_defined. exact Hd.
  - unfold tempo_change_fire.
    destruct (tempo_change s) as [[|]|];
      rewrite ?increase_tempo_unfold, ?decrease_tempo_unfold; eauto.
  - unfold input_timeout, modify. eauto.
  - unfold tap_timeout, modify. eauto.
  - unfold at_time, modify. eauto.
  - unfold modify. eauto.
Qed.

Lemma handle_defined_witness :
  firmware_inv fresh /\
  2 <= time_us_64 fresh - last_tap fresh < 2 ^ 63 /\
  exists s', handle (KeyReleased 13) fresh = Some s'.
Proof.
  split; [exact firmware_inv_fresh|].
  split; [vm_compute; split; [discriminate | reflexivity]|].
  apply (handle_defined (KeyReleased 13) fresh firmware_inv_fresh).
  intros _. vm_compute. split; [discriminate | reflexivity].
Defined.

(** The division in [tap] is unguarded: [tap] divides by zero exactly when
    it is the second or a later tap of a sequence and the new average is
    0, as for a second tap at the clock reading of the first. *)
Theorem tap_divides_by_zero (s : state) :
  subdiv s <> 0 ->
  (tap s = None <->
   u8 (num_taps s + 1) > 1 /\
   u64 (tap_interval_avg s + u64 (time_us_64 s - last_tap s)) / 2 = 0).
Proof.
  intros Hd. rewrite tap_unfold. cbn zeta. fields.
  destruct (u8 (num_taps s + 1) >? 1) eqn:C.
  - apply Z.gtb_lt in C. unfold interval_to_bpm.
    destruct (_ =? 0) eqn:E.
    + apply Z.eqb_eq in E. cbn. split; [intros _; split; lia | reflexivity].
    + apply Z.eqb_neq in E. cbn [obind].
      match goal with |- context [set_tempo ?t ?s0] =>
        destruct (set_tempo_defined t s0) as [s' ->]; [exact Hd|] end.
      cbn. split; [discriminate | intros [_ Z0]; contradiction].
  - split; [discriminate|]. intros [G _].
    rewrite Z.gtb_ltb in C. apply Z.ltb_ge in C. lia.
Qed.

Lemma tap_divides_by_zero_witness :
  subdiv tapped_once <> 0 /\
  time_us_64 tapped_once = last_tap tapped_once /\
  tap tapped_once = None.
Proof.
  split; [discriminate|]. split; [reflexivity|].
  apply (proj2 (tap_divides_by_zero tapped_once ltac:(discriminate))).
  split; reflexivity.
Defined.

(** ** The preset store *)

Lemma four_entries (a : list Z) :
  length a = 4%nat -> exists a0 a1 a2 a3, a = [a0; a1; a2; a3].
Proof.
  destruct a as [|a0 [|a1 [|a2 [|a3 [|]]]]]; try discriminate. eauto 6.
Qed.

(** A page laid out by [fill_flash_buffer] from valid presets passes the
    validation and loads as the presets it was made from. *)
Lemma layout_loads (tp sp ap : list Z) (now : Z) (sw : bool) :
  length tp = 4%nat -> length sp = 4%nat -> length ap = 4%nat ->
  Forall (fun t => 1 <= t <= 255) tp ->
  Forall (fun d => 1 <= d <= 10) sp ->
  Forall (fun a => 0 <= a <= 1) ap ->
  let page := MAGIC_NUMBER ++ tp ++ sp ++ ap ++ repeat 0 241 in
  invalid_data (flash_byte page) = false /\
  tempo_presets (loaded page now sw) = tp /\
  subdiv_presets (loaded page now sw) = sp /\
  accent_presets (loaded page now sw) = ap.
Proof.
  intros L1 L2 L3 F1 F2 F3.
  destruct (four_entries tp L1) as (t0 & t1 & t2 & t3 & ->).
  destruct (four_entries sp L2) as (d0 & d1 & d2 & d3 & ->).
  destruct (four_entries ap L3) as (a0 & a1 & a2 & a3 & ->).
  intros page. subst page. split; [|repeat split; reflexivity].
  match goal with |- ?x = false => destruct x eqn:V end; [|reflexivity].
  exfalso. apply invalid_data_spec in V.
  repeat match goal with
         | H : Forall _ (_ :: _) |- _ => inversion H; subst; clear H
         | H : Forall _ [] |- _ => clear H
         end.
  assert (C : forall i, 0 <= i < 4 -> i = 0 \/ i = 1 \/ i = 2 \/ i = 3)
    by (intros; lia).
  destruct V as [(i & Hi & H) | [(i & Hi & H) | [(i & Hi & H) | (i & Hi & H)]]].
  - assert (Ci : i = 0 \/ i = 1 \/ i = 2)
      by (unfold MAGIC_NUMBER_LENGTH in Hi; lia).
    destruct Ci as [-> | [-> | ->]]; apply H; reflexivity.
  - destruct (C i Hi) as [-> | [-> | [-> | ->]]]; read_bytes H; lia.
  - destruct (C i Hi) as [-> | [-> | [-> | ->]]]; read_bytes H; lia.
  - destruct (C i Hi) as [-> | [-> | [-> | ->]]]; read_bytes H; lia.
Qed.

(** [write_flash_presets] programs one 256-byte page: the three signature
    bytes, the four tempi, the four subdivisions, the four accents, and 241
    zero bytes. *)
Theorem write_flash_presets_layout (s : state) :
  length (tempo_presets s) = 4%nat ->
  length (subdiv_presets s) = 4%nat ->
  length (accent_presets s) = 4%nat ->
  exists s',
    write_flash_presets s = Some s' /\
    flash s' = [0x42; 0x50; 0x4D] ++ tempo_presets s ++ subdiv_presets s ++
               accent_presets s ++ repeat 0 241 /\
    Z.of_nat (length (flash s')) = FLASH_PAGE_SIZE /\
    trace s' = trace s ++ [OutFlashProgram (flash s')] /\
    tempo_presets s' = tempo_presets s /\
    subdiv_presets s' = subdiv_presets s /\
    accent_presets s' = accent_presets s.
Proof.
  intros L1 L2 L3. unfold write_flash_presets.
  rewrite fill_flash_buffer_layout by assumption. cbn [obind].
  unfold andthen, emit, modify. eexists. split; [reflexivity|]. fields.
  split; [reflexivity|]. split; [|repeat split; reflexivity].
  rewrite !length_app, L1, L2, L3. reflexivity.
Qed.

Lemma write_flash_presets_layout_witness :
  exists s',
    write_flash_presets fresh = Some s' /\
    flash s' = [0x42; 0x50; 0x4D] ++ [60; 90; 60; 150] ++ [1; 1; 2; 1] ++
               [0; 0; 1; 0] ++ repeat 0 241 /\
    Z.of_nat (length (flash s')) = 256.
Proof.
  destruct (write_flash_presets_layout fresh eq_refl eq_refl eq_refl)
    as (s' & E & F & L & _).
  exists s'. split; [exact E|]. split; [exact F | exact L].
Defined.

(** What [write_flash_presets] wrote is what [read_flash_presets] loads at
    the next start, whenever the presets are within the validated
    ranges. *)
Theorem write_then_boot_round_trip (s : state) (now : Z) (sw : bool) :
  valid_presets s ->
  exists s' s0,
    write_flash_presets s = Some s' /\
    main_init (flash s') now sw = Some s0 /\
    tempo_presets s0 = tempo_presets s /\
    subdiv_presets s0 = subdiv_presets s /\
    accent_presets s0 = accent_presets s.
Proof.
  intros (L1 & L2 & L3 & F1 & F2 & F3). unfold write_flash_presets.
  rewrite fill_flash_buffer_layout by assumption. cbn [obind].
  unfold andthen, emit, modify. eexists. eexists.
  split; [reflexivity|]. fields. rewrite main_init_cases.
  destruct (layout_loads _ _ _ now sw L1 L2 L3 F1 F2 F3) as (V & T & D & A).
  rewrite V. split; [reflexivity|]. auto.
Qed.

Lemma write_then_boot_round_trip_witness :
  exists s' s0,
    write_flash_presets fresh = Some s' /\
    main_init (flash s') 0 false = Some s0 /\
    tempo_presets s0 = [60; 90; 60; 150] /\
    subdiv_presets s0 = [1; 1; 2; 1] /\
    accent_presets s0 = [0; 0; 1; 0].
Proof.
  exact (write_then_boot_round_trip fresh 0 false valid_presets_fresh).
Defined.

Lemma arr_get_upd_other (a : list Z) (i j v : Z) :
  0 <= i -> 0 <= j -> i <> j ->
  arr_get (list_upd a (Z.to_nat i) v) j = arr_get a j.
Proof.
  intros Hi Hj Hn. unfold arr_get. rewrite list_upd_length.
  destruct (_ && _); [|reflexivity].
  assert (Hm : Z.to_nat i <> Z.to_nat j) by lia.
  generalize dependent (Z.to_nat j). generalize dependent (Z.to_nat i).
  clear. intros n m Hm. revert n m Hm.
  induction a as [|x a IH]; intros [|n] [|m] Hm; cbn; try reflexivity;
    try congruence.
  apply IH. congruence.
Qed.

(** [save_preset c] with a tempo set stores the live tempo, subdivision and
    accent in slot [c] and leaves the other slots alone, programs the page
    once between the green blink and the sleep, keeps the live values and
    restarts the scheduler at the live tempo. *)
Theorem save_preset_stores_slot (c : Z) (s : state) :
  firmware_inv s -> 0 <= c < 4 -> tempo s <> 0 ->
  exists s' page,
    save_preset c s = Some s' /\
    arr_get (tempo_presets s') c = Some (tempo s) /\
    arr_get (subdiv_presets s') c = Some (subdiv s) /\
    arr_get (accent_presets s') c = Some (Z.b2z (accent s)) /\
    (forall j, 0 <= j -> j <> c ->
       arr_get (tempo_presets s') j = arr_get (tempo_presets s) j /\
       arr_get (subdiv_presets s') j = arr_get (subdiv_presets s) j /\
       arr_get (accent_presets s') j = arr_get (accent_presets s) j) /\
    trace s' = trace s ++ [OutBlink NOTIF_DURATION_MS GREEN;
                           OutFlashProgram page;
                           OutSleep NOTIF_DURATION_MS] /\
    flash s' = page /\
    tempo s' = tempo s /\ subdiv s' = subdiv s /\ accent s' = accent s /\
    ticks s' = 0 /\ paused s' = false /\
    metronome s' = Some (- (60000000 / tempo s / subdiv s)).
Proof.
  intros H Hc Hz.
  destruct H as [Ht Hd _ _ _ (L1 & L2 & L3 & _) _].
  unfold save_preset.
  destruct (tempo s =? 0) eqn:E; [apply Z.eqb_eq in E; contradiction|].
  unfold andthen.
  rewrite arr_set_runs by lia. cbn [obind]. fields.
  rewrite arr_set_runs by lia. cbn [obind]. fields.
  rewrite arr_set_runs by lia. cbn [obind]. fields.
  rewrite stop_runs. unfold blink, emit, modify, write_flash_presets.
  rewrite fill_flash_buffer_layout
    by (fields; rewrite list_upd_length; assumption).
  cbn [obind]. unfold andthen, emit, modify. fields.
  rewrite set_tempo_runs by (fields; lia).
  eexists. eexists. split; [reflexivity|]. fields.
  rewrite !arr_get_upd_same by lia.
  split; [reflexivity|]. split; [reflexivity|]. split; [reflexivity|].
  split.
  { intros j Hj Hn. rewrite !arr_get_upd_other by lia. auto. }
  split; [rewrite <- !app_assoc; reflexivity|].
  split; [reflexivity|].
  repeat split. rewrite timer_delay by lia. reflexivity.
Qed.

Lemma save_preset_stores_slot_witness :
  exists s',
    save_preset 0 running_100 = Some s' /\
    tempo_presets s' = [100; 90; 60; 150] /\
    metronome s' = Some (-600000).
Proof.
  destruct (save_preset_stores_slot 0 running_100 firmware_inv_running_100
              ltac:(lia) ltac:(discriminate))
    as (s' & page & E & _).
  exists s'. split; [exact E|].
  revert E. vm_compute. intros [= <-]. split; reflexivity.
Defined.

(** A saved slot survives a restart: the page [save_preset] programs loads
    at the next start with every slot as the save left it. *)
Theorem save_preset_survives_restart
  (c : Z) (s : state) (now : Z) (sw : bool) :
  firmware_inv s -> 0 <= c < 4 -> tempo s <> 0 ->
  exists s' s0,
    save_preset c s = Some s' /\
    main_init (flash s') now sw = Some s0 /\
    tempo_presets s0 = tempo_presets s' /\
    subdiv_presets s0 = subdiv_presets s' /\
    accent_presets s0 = accent_presets s' /\
    arr_get (tempo_presets s0) c = Some (tempo s) /\
    arr_get (subdiv_presets s0) c = Some (subdiv s) /\
    arr_get (accent_presets s0) c = Some (Z.b2z (accent s)).
Proof.
  intros H Hc Hz.
  destruct (save_preset_runs c s (inv_well_formed s H) Hc Hz)
    as (s' & E & _ & _ & _ & _ & G1 & G2 & G3 & _).
  assert (H' : firmware_inv s') by exact (keeps_save_preset c s s' H E).
  destruct H' as [_ _ _ _ _ (L1 & L2 & L3 & F1 & F2 & F3) _].
  assert (P : flash s' =
              MAGIC_NUMBER ++ tempo_presets s' ++ subdiv_presets s' ++
              accent_presets s' ++ repeat 0 241).
  { revert E. unfold save_preset.
    destruct (tempo s =? 0) eqn:E0; [apply Z.eqb_eq in E0; contradiction|].
    destruct H as [Ht Hd _ _ _ (M1 & M2 & M3 & _) _].
    unfold andthen.
    rewrite arr_set_runs by lia. cbn [obind]. fields.
    rewrite arr_set_runs by lia. cbn [obind]. fields.
    rewrite arr_set_runs by lia. cbn [obind]. fields.
    rewrite stop_runs. unfold blink, emit, modify, write_flash_presets.
    rewrite fill_flash_buffer_layout
      by (fields; rewrite list_upd_length; assumption).
    cbn [obind]. unfold andthen, emit, modify. fields.
    rewrite set_tempo_runs by (fields; lia).
    intros [= E]; subst s'. reflexivity. }
  destruct (layout_loads _ _ _ now sw L1 L2 L3 F1 F2 F3) as (V & T & D & A).
  exists s'. eexists. split; [exact E|].
  rewrite main_init_cases, P, V. split; [reflexivity|].
  rewrite T, D, A. auto 8.
Qed.

Lemma save_preset_survives_restart_witness :
  exists s' s0,
    save_preset 0 running_100 = Some s' /\
    main_init (flash s') 7 true = Some s0 /\
    arr_get (tempo_presets s0) 0 = Some 100.
Proof.
  destruct (save_preset_survives_restart 0 running_100 7 true
              firmware_inv_running_100 ltac:(lia) ltac:(discriminate))
    as (s' & s0 & E & M & _ & _ & _ & G & _).
  exists s', s0. split; [exact E|]. split; [exact M | exact G].
Defined.

(** The state [apply_preset] leaves for a slot that [set_measure]
    accepts. *)
Lemma apply_preset_runs (c t a m : Z) (s : state) :
  arr_get (tempo_presets s) c = Some t ->
  arr_get (accent_presets s) c = Some a ->
  arr_get (subdiv_presets s) c = Some m ->
  1 <= t -> 1 <= m <= 9 ->
  apply_preset c s =
  Some (started t
          (stopped
             (with_subdiv m (with_accent (negb (a =? 0)) (with_tempo t s))))).
Proof.
  intros Ht Ha Hm Rt Rm. unfold apply_preset, andthen.
  rewrite Ht. cbn [obind]. fields.
  rewrite Ha. cbn [obind]. fields.
  rewrite Hm. cbn [obind].
  rewrite set_measure_unfold. fields.
  replace ((m <? 1) || (m >? 9)) with false.
  2:{ symmetry. apply orb_false_iff. split; [apply Z.ltb_ge; lia|].
      rewrite Z.gtb_ltb. apply Z.ltb_ge. lia. }
  replace (t >? 0) with true by (symmetry; apply Z.gtb_lt; lia).
  apply set_tempo_runs; [lia | fields; lia].
Qed.

(** [apply_preset c] on a slot holding a tempo in 1..255 and a subdivision
    in 1..9 makes all three values live and leaves the scheduler running
    from tick 0 at the slot's tempo and subdivision. *)
Theorem apply_preset_valid_slot (c t a m : Z) (s : state) :
  arr_get (tempo_presets s) c = Some t ->
  arr_get (accent_presets s) c = Some a ->
  arr_get (subdiv_presets s) c = Some m ->
  1 <= t <= 255 -> 1 <= m <= 9 ->
  exists s',
    apply_preset c s = Some s' /\
    tempo s' = t /\ accent s' = negb (a =? 0) /\ subdiv s' = m /\
    ticks s' = 0 /\ paused s' = false /\
    metronome s' = Some (- (60000000 / t / m)) /\
    trace s' = trace s.
Proof.
  intros Ht Ha Hm Rt Rm.
  rewrite (apply_preset_runs c t a m s Ht Ha Hm) by lia.
  eexists. split; [reflexivity|]. fields.
  repeat split. rewrite timer_delay by lia. reflexivity.
Qed.

Lemma apply_preset_valid_slot_witness :
  exists s',
    apply_preset 2 fresh = Some s' /\
    tempo s' = 60 /\ accent s' = negb (1 =? 0) /\ subdiv s' = 2 /\
    ticks s' = 0 /\ paused s' = false /\
    metronome s' = Some (- (60000000 / 60 / 2)) /\
    trace s' = trace fresh.
Proof.
  apply (apply_preset_valid_slot 2 60 1 2 fresh); try reflexivity; lia.
Defined.

(** Recall returns what was stored: whatever has become of the live
    values since [save_preset c], as long as the slots are those the save
    left, [apply_preset c] brings back the tempo, subdivision and accent
    that were live at the save. *)
Theorem save_then_apply_recalls (c : Z) (s s1 s2 : state) :
  firmware_inv s -> 0 <= c < 4 -> tempo s <> 0 ->
  save_preset c s = Some s1 ->
  tempo_presets s2 = tempo_presets s1 ->
  subdiv_presets s2 = subdiv_presets s1 ->
  accent_presets s2 = accent_presets s1 ->
  exists s3,
    apply_preset c s2 = Some s3 /\
    tempo s3 = tempo s /\ subdiv s3 = subdiv s /\ accent s3 = accent s /\
    paused s3 = false /\
    metronome s3 = Some (- (60000000 / tempo s / subdiv s)).
Proof.
  intros H Hc Hz E T D A.
  destruct (save_preset_runs c s (inv_well_formed s H) Hc Hz)
    as (s' & E' & _ & _ & _ & _ & G1 & G2 & G3 & _).
  rewrite E in E'. injection E' as <-.
  rewrite <- T in G1. rewrite <- D in G2. rewrite <- A in G3.
  destruct H as [Ht Hd _ _ _ _ _].
  rewrite (apply_preset_runs c _ _ _ s2 G1 G3 G2) by lia.
  eexists. split; [reflexivity|]. fields.
  split; [reflexivity|]. split; [reflexivity|].
  split; [destruct (accent s); reflexivity|].
  split; [reflexivity|]. rewrite timer_delay by lia. reflexivity.
Qed.

Lemma save_then_apply_recalls_witness :
  tempo saved_then_90 = 90 /\
  exists s3,
    apply_preset 0 saved_then_90 = Some s3 /\
    tempo s3 = tempo running_100 /\ subdiv s3 = subdiv running_100 /\
    accent s3 = accent running_100 /\ paused s3 = false /\
    metronome s3 =
      Some (- (60000000 / tempo running_100 / subdiv running_100)).
Proof.
  split; [vm_compute; reflexivity|].
  apply (save_then_apply_recalls 0 running_100
           (after (save_preset 0) running_100) saved_then_90
           firmware_inv_running_100).
  - lia.
  - vm_compute. discriminate.
  - vm_compute. reflexivity.
  - vm_compute. reflexivity.
  - vm_compute. reflexivity.
  - vm_compute. reflexivity.
Defined.

(** ** Tempo entry, continued *)

Lemma for_each_app (l1 l2 : list Z) (body : Z -> proc) (s : state) :
  for_each (l1 ++ l2) body s = (for_each l1 body ;; for_each l2 body) s.
Proof.
  revert s. induction l1 as [|i l1 IH]; intros s; cbn [for_each app].
  - reflexivity.
  - unfold andthen. destruct (body i s) as [s1|]; [|reflexivity].
    rewrite IH. reflexivity.
Qed.

Lemma decimal_value_snoc (ds : list Z) (d : Z) :
  decimal_value (ds ++ [d]) = decimal_value ds * 10 + d.
Proof. unfold decimal_value. rewrite fold_left_app. reflexivity. Qed.

Lemma decimal_value_nonneg (ds : list Z) :
  Forall (fun d => 0 <= d <= 9) ds -> 0 <= decimal_value ds.
Proof.
  intros H. induction ds as [|d ds IH] using rev_ind; [cbn; lia|].
  apply Forall_app in H. destruct H as [H1 H2]. inversion H2; subst.
  rewrite decimal_value_snoc. specialize (IH H1). lia.
Qed.

(** Typing the digits of a number [n] below 65536 into an empty buffer
    leaves [n] in the buffer; the metronome then runs at tempo [n] if [n]
    is in 1..255 and stands stopped otherwise, whatever the prefixes
    did. *)
Theorem type_digits_applies_value (ds : list Z) (s : state) :
  ds <> [] -> tempo_prompt s = 0 -> 1 <= subdiv s <= 9 ->
  Forall (fun d => 0 <= d <= 9) ds -> decimal_value ds < 2 ^ 16 ->
  exists s',
    type_digits ds s = Some s' /\
    tempo_prompt s' = decimal_value ds /\
    (1 <= decimal_value ds <= 255 ->
     tempo s' = decimal_value ds /\ paused s' = false /\ ticks s' = 0 /\
     metronome s' = Some (- (60000000 / decimal_value ds / subdiv s))) /\
    (decimal_value ds = 0 \/ 256 <= decimal_value ds ->
     paused s' = true /\ metronome s' = None).
Proof.
  intros Hne Hp Hd Hds Hv.
  destruct (exists_last Hne) as (ds0 & d & ->).
  apply Forall_app in Hds. destruct Hds as [H0 H1].
  inversion H1 as [|? ? Hd1 _]; subst.
  rewrite decimal_value_snoc in *.
  pose proof (decimal_value_nonneg ds0 H0) as Hn0.
  destruct (type_digits_decimal_value ds0 s Hp ltac:(lia) H0 ltac:(lia))
    as (s0 & E0 & P0 & D0).
  unfold type_digits in *. rewrite for_each_app. unfold andthen.
  rewrite E0. cbn [for_each]. unfold andthen, skip.
  set (n := decimal_value ds0 * 10 + d) in *.
  destruct (Z_le_dec 256 n) as [Hbig | Hsmall].
  - rewrite (type_tempo_out_of_range d n) by (rewrite ?P0; lia).
    eexists. split; [reflexivity|]. fields.
    split; [reflexivity|]. split; [lia|]. auto.
  - destruct (Z.eq_dec n 0) as [Hz | Hnz].
    + rewrite type_tempo_unfold. cbn zeta. rewrite P0.
      rewrite (u16_small (decimal_value ds0 * 10)) by lia.
      fold n. rewrite Hz. change (u16 0) with 0. cbn [Z.gtb Z.compare andb].
      eexists. split; [reflexivity|]. fields.
      split; [reflexivity|]. split; [lia|]. auto.
    + rewrite (type_tempo_in_range d n) by (rewrite ?P0; lia).
      eexists. split; [reflexivity|]. fields.
      split; [reflexivity|]. split; [|lia].
      intros _. repeat split. rewrite timer_delay by lia.
      rewrite D0. reflexivity.
Qed.

Lemma type_digits_applies_value_witness :
  exists s',
    type_digits [1; 2; 0] fresh = Some s' /\
    tempo_prompt s' = decimal_value [1; 2; 0] /\
    (1 <= decimal_value [1; 2; 0] <= 255 ->
     tempo s' = decimal_value [1; 2; 0] /\ paused s' = false /\
     ticks s' = 0 /\
     metronome s' =
       Some (- (60000000 / decimal_value [1; 2; 0] / subdiv fresh))) /\
    (decimal_value [1; 2; 0] = 0 \/ 256 <= decimal_value [1; 2; 0] ->
     paused s' = true /\ metronome s' = None).
Proof.
  apply (type_digits_applies_value [1; 2; 0] fresh).
  - discriminate.
  - reflexivity.
  - vm_compute. split; discriminate.
  - repeat constructor; lia.
  - reflexivity.
Defined.

(** ** Clock conversion, continued *)

(** [interval_to_bpm] returns the quotient itself exactly for intervals
    above 234375 microseconds; at 256 BPM and faster the cut to [uint8_t]
    returns the quotient less a multiple of 256. *)
Theorem interval_to_bpm_exact_iff (interval : Z) :
  1 <= interval ->
  (interval_to_bpm interval = Some (60000000 / interval) <->
   234375 < interval).
Proof.
  intros H. unfold interval_to_bpm.
  destruct (interval =? 0) eqn:E; [apply Z.eqb_eq in E; lia|].
  change (60 * 1000 * 1000) with 60000000.
  assert (Hq : 0 <= 60000000 / interval) by (apply Z.div_pos; lia).
  split.
  - intros [= E']. unfold u8 in E'.
    apply Z.mod_small_iff in E'; [|discriminate].
    destruct E' as [E' | E']; [|lia].
    destruct (Z_lt_dec 234375 interval) as [G | G]; [exact G|].
    assert (256 <= 60000000 / interval)
      by (apply Z.div_le_lower_bound; lia).
    change (2 ^ 8) with 256 in E'. lia.
  - intros G. f_equal. apply u8_small. split; [exact Hq|].
    apply Z.div_lt_upper_bound; [lia|]. change (2 ^ 8) with 256. lia.
Qed.

Lemma interval_to_bpm_exact_iff_witness :
  interval_to_bpm 500000 = Some (60000000 / 500000).
Proof.
  apply (proj2 (interval_to_bpm_exact_iff 500000 ltac:(lia))). lia.
Defined.

(** ** The scheduler, continued *)

(** [set_tempo] with a tempo in 1..255 arms the beat timer from tick 0 with
    a negative delay, the beat interval divided by the subdivision, between
    26143 and 60000000 microseconds; the ticks of one beat fall short of
    the beat interval by less than one microsecond per subdivision. *)
Theorem set_tempo_arms_timer (t : Z) (s : state) :
  1 <= t <= 255 -> 1 <= subdiv s <= 9 ->
  exists s' d,
    set_tempo t s = Some s' /\
    metronome s' = Some (- d) /\ d = 60000000 / t / subdiv s /\
    26143 <= d <= 60000000 /\
    0 <= 60000000 / t - subdiv s * d < subdiv s /\
    tempo s' = t /\ ticks s' = 0 /\ paused s' = false /\
    subdiv s' = subdiv s.
Proof.
  intros Ht Hd. rewrite set_tempo_runs by lia.
  exists (started t s), (60000000 / t / subdiv s).
  split; [reflexivity|]. fields. rewrite timer_delay by lia.
  split; [reflexivity|]. split; [reflexivity|].
  split; [apply delay_bounds; assumption|].
  split; [|repeat split].
  pose proof (Z.mul_div_le (60000000 / t) (subdiv s) ltac:(lia)).
  pose proof (Z.mul_succ_div_gt (60000000 / t) (subdiv s) ltac:(lia)).
  lia.
Qed.

Lemma set_tempo_arms_timer_witness :
  exists s' d,
    set_tempo 120 triplets_100 = Some s' /\
    metronome s' = Some (- d) /\ d = 60000000 / 120 / subdiv triplets_100 /\
    26143 <= d <= 60000000 /\
    0 <= 60000000 / 120 - subdiv triplets_100 * d < subdiv triplets_100 /\
    tempo s' = 120 /\ ticks s' = 0 /\ paused s' = false /\
    subdiv s' = subdiv triplets_100.
Proof.
  apply (set_tempo_arms_timer 120 triplets_100); [lia|].
  vm_compute. split; discriminate.
Defined.

(** [set_measure] with a measure in 1..9 stores it and, a tempo being
    set, restarts the scheduler at that tempo from tick 0 with the beat
    interval divided by the new subdivision; with tempo 0 it stores the
    measure and leaves the scheduler stopped; any other measure changes
    nothing. *)
Theorem set_measure_restarts (m : Z) (s : state) :
  0 <= tempo s <= 255 ->
  exists s',
    set_measure m s = Some s' /\
    (m < 1 \/ 9 < m -> s' = s) /\
    (1 <= m <= 9 ->
     subdiv s' = m /\ tempo s' = tempo s /\
     (1 <= tempo s ->
      ticks s' = 0 /\ paused s' = false /\
      metronome s' = Some (- (60000000 / tempo s / m))) /\
     (tempo s = 0 -> paused s' = true /\ metronome s' = None)).
Proof.
  intros Ht. rewrite set_measure_unfold.
  destruct ((m <? 1) || (m >? 9)) eqn:E.
  - apply orb_true_iff in E. exists s. split; [reflexivity|].
    split; [reflexivity|]. intros Hm.
    destruct E as [E | E]; [apply Z.ltb_lt in E | apply Z.gtb_lt in E]; lia.
  - apply orb_false_iff in E. destruct E as [E1 E2].
    apply Z.ltb_ge in E1. rewrite Z.gtb_ltb in E2. apply Z.ltb_ge in E2.
    destruct (tempo s >? 0) eqn:C.
    + apply Z.gtb_lt in C. rewrite set_tempo_runs by (fields; lia).
      eexists. split; [reflexivity|]. split; [lia|]. intros _. fields.
      split; [reflexivity|]. split; [reflexivity|]. split; [|lia].
      intros _. repeat split. rewrite timer_delay by lia. reflexivity.
    + rewrite Z.gtb_ltb in C. apply Z.ltb_ge in C.
      eexists. split; [reflexivity|]. split; [lia|]. intros _. fields.
      split; [reflexivity|]. split; [reflexivity|]. split; [lia|].
      intros _. split; reflexivity.
Qed.

Lemma set_measure_restarts_witness :
  exists s',
    set_measure 3 running_100 = Some s' /\
    subdiv s' = 3 /\ metronome s' = Some (-200000).
Proof.
  destruct (set_measure_restarts 3 running_100)
    as (s' & E & _ & R); [vm_compute; split; discriminate|].
  destruct (R ltac:(lia)) as (D & _ & M & _).
  destruct (M ltac:(vm_compute; discriminate)) as (_ & _ & M').
  exists s'. split; [exact E|]. split; [exact D | exact M'].
Defined.

(** A press of an adjustment key does not touch the armed timer; the next
    tick sends its pulse and then restarts the scheduler at the stepped
    tempo, from tick 0. *)
Theorem press_then_tick_retimes (key : Z) (s : state) :
  key = 12 \/ key = 14 ->
  1 <= subdiv s <= 9 -> 2 <= tempo s <= 254 ->
  exists s1 s2,
    key_pressed key s = Some s1 /\
    metronome s1 = metronome s /\ ticks s1 = ticks s /\
    tick s1 = Some s2 /\
    tempo s2 = (if key =? 12 then tempo s + 1 else tempo s - 1) /\
    metronome s2 = Some (- (60000000 / tempo s2 / subdiv s)) /\
    ticks s2 = 0 /\ paused s2 = false /\ recalc_interval s2 = false /\
    trace s2 =
      trace s ++
      tick_outputs (accent s && (ticks s =? 0)) (vibr_switch_pin s).
Proof.
  intros Hk Hd Ht. unfold key_pressed, andthen, modify.
  destruct Hk as [-> | ->]; cbn [Z.eqb Pos.eqb].
  - rewrite decrease_tempo_unfold. fields.
    replace (tempo s <? 256) with true by (symmetry; apply Z.ltb_lt; lia).
    rewrite u8_small by lia.
    eexists. eexists. split; [reflexivity|]. fields.
    split; [reflexivity|]. split; [reflexivity|].
    rewrite tick_unfold. fields.
    replace (tempo s + 1 >? 0) with true by (symmetry; apply Z.gtb_lt; lia).
    rewrite set_tempo_runs by (unfold pulsed; fields; lia).
    cbn [option_map]. split; [reflexivity|]. unfold pulsed. fields.
    split; [reflexivity|]. rewrite timer_delay by lia.
    repeat split.
  - rewrite increase_tempo_unfold. fields.
    replace (tempo s >? 0) with true by (symmetry; apply Z.gtb_lt; lia).
    eexists. eexists. split; [reflexivity|]. fields.
    split; [reflexivity|]. split; [reflexivity|].
    rewrite tick_unfold. fields.
    replace (tempo s - 1 >? 0) with true by (symmetry; apply Z.gtb_lt; lia).
    rewrite set_tempo_runs by (unfold pulsed; fields; lia).
    cbn [option_map]. split; [reflexivity|]. unfold pulsed. fields.
    split; [reflexivity|]. rewrite timer_delay by lia.
    repeat split.
Qed.

Lemma press_then_tick_retimes_witness :
  exists s1 s2,
    key_pressed 12 running_100 = Some s1 /\
    metronome s1 = Some (-600000) /\
    tick s1 = Some s2 /\
    tempo s2 = 101 /\
    metronome s2 = Some (- (60000000 / tempo s2 / 1)).
Proof.
  destruct (press_then_tick_retimes 12 running_100)
    as (s1 & s2 & E1 & M1 & _ & E2 & T2 & M2 & _).
  - left. reflexivity.
  - vm_compute. split; discriminate.
  - vm_compute. split; discriminate.
  - exists s1, s2. split; [exact E1|]. split; [exact M1|].
    split; [exact E2|]. split; [exact T2 | exact M2].
Defined.

(** At either end of the range a step stops the metronome: key 14 at
    tempo 1 and key 12 at tempo 255 both leave tempo 0, and the next tick
    cancels the beat timer without arming it again. *)
Theorem step_off_the_range_stops (key : Z) (s : state) :
  (key = 14 /\ tempo s = 1) \/ (key = 12 /\ tempo s = 255) ->
  exists s1 s2,
    key_pressed key s = Some s1 /\ tempo s1 = 0 /\
    metronome s1 = metronome s /\
    tick s1 = Some s2 /\
    tempo s2 = 0 /\ metronome s2 = None /\ paused s2 = true /\
    recalc_interval s2 = false.
Proof.
  intros Hk. unfold key_pressed, andthen, modify.
  destruct Hk as [[-> Ht] | [-> Ht]].
  - rewrite increase_tempo_unfold. fields. rewrite Ht. cbn [Z.gtb Z.compare].
    eexists. eexists. split; [reflexivity|]. fields.
    split; [reflexivity|]. split; [reflexivity|].
    rewrite tick_unfold. fields.
    cbn [Z.sub Z.add Z.opp Z.pos_sub Z.gtb Z.compare].
    split; [reflexivity|]. unfold pulsed. fields. repeat split.
  - rewrite decrease_tempo_unfold. fields. rewrite Ht.
    change (255 <? 256) with true. change (u8 (255 + 1)) with 0.
    eexists. eexists. split; [reflexivity|]. fields.
    split; [reflexivity|]. split; [reflexivity|].
    rewrite tick_unfold. fields. cbn [Z.gtb Z.compare].
    split; [reflexivity|]. unfold pulsed. fields. repeat split.
Qed.

Lemma step_off_the_range_stops_witness :
  exists s1 s2,
    key_pressed 14 running_1 = Some s1 /\ tempo s1 = 0 /\
    metronome s1 = metronome running_1 /\
    tick s1 = Some s2 /\
    tempo s2 = 0 /\ metronome s2 = None /\ paused s2 = true /\
    recalc_interval s2 = false.
Proof.
  apply (step_off_the_range_stops 14 running_1).
  left. split; reflexivity.
Defined.

(** ** Tap tempo, continued *)

(** The first two taps of a sequence blend the interval between them with
    the average left by earlier sequences, which [tap_timeout] does not
    clear: [d] microseconds apart on an old average [a] they leave
    [(a + d) / 2], and the scheduler is started from its tempo. *)
Theorem tap_blends_old_average (s : state) (d : Z) :
  num_taps s = 0 -> subdiv s <> 0 ->
  0 <= tap_interval_avg s < 2 ^ 63 ->
  0 <= time_us_64 s -> 2 <= d -> time_us_64 s + d < 2 ^ 63 ->
  let avg := (tap_interval_avg s + d) / 2 in
  let t := u8 (60000000 / avg) in
  exists s1 s2,
    tap s = Some s1 /\
    metronome s1 = None /\ tap_interval_avg s1 = tap_interval_avg s /\
    (at_time (time_us_64 s + d) ;; tap) s1 = Some s2 /\
    tap_interval_avg s2 = avg /\ num_taps s2 = 2 /\
    (1 <= t -> tempo s2 = t /\ paused s2 = false) /\
    (t = 0 -> tempo s2 = tempo s /\ paused s2 = true).
Proof.
  intros Hn Hs Ha Ht Hd Hb avg t.
  assert (Hh : 1 <= avg) by (apply Z.div_le_lower_bound; lia).
  set (s1 := with_last_tap (time_us_64 s)
               (with_num_taps 1
                  (with_tap_timeout_alarm (Some INPUT_TIMEOUT_MS)
                     (stopped s)))).
  assert (E1 : tap s = Some s1).
  { rewrite tap_unfold. cbn zeta. fields. rewrite Hn. reflexivity. }
  assert (E2 : (at_time (time_us_64 s + d) ;; tap) s1 =
               option_map (with_last_tap (time_us_64 s + d))
                 (set_tempo t
                    (with_tap_interval_avg avg
                       (with_num_taps 2
                          (with_tap_timeout_alarm (Some INPUT_TIMEOUT_MS)
                             (stopped
                                (with_time_us_64 (time_us_64 s + d) s1))))))).
  { unfold andthen, at_time, modify. rewrite tap_unfold. cbn zeta.
    unfold s1. fields.
    change (u8 (1 + 1) >? 1) with true. cbn iota.
    replace (time_us_64 s + d - time_us_64 s) with d by lia.
    rewrite (u64_small d) by lia.
    rewrite (u64_small (tap_interval_avg s + d)) by lia. fold avg.
    unfold interval_to_bpm.
    destruct (avg =? 0) eqn:E; [apply Z.eqb_eq in E; lia|]. cbn [obind].
    reflexivity. }
  exists s1. rewrite E2.
  destruct (Z_lt_dec t 1) as [Hlt | Hge].
  - rewrite set_tempo_ignores_zero by exact Hlt. cbn [option_map].
    eexists. split; [exact E1|]. unfold s1. fields.
    split; [reflexivity|]. split; [reflexivity|]. split; [reflexivity|].
    split; [reflexivity|]. split; [reflexivity|]. split; [lia|]. auto.
  - rewrite set_tempo_runs by (unfold s1; fields; lia). cbn [option_map].
    eexists. split; [exact E1|]. unfold s1. fields.
    split; [reflexivity|]. split; [reflexivity|]. split; [reflexivity|].
    split; [reflexivity|]. split; [reflexivity|].
    split; [auto|]. intros C. lia.
Qed.

Lemma tap_blends_old_average_witness :
  tap_interval_avg after_timeout = 500000 /\
  exists s1 s2,
    tap after_timeout = Some s1 /\
    (at_time (time_us_64 after_timeout + 1000000) ;; tap) s1 = Some s2 /\
    tap_interval_avg s2 = 750000.
Proof.
  split; [reflexivity|].
  destruct (tap_blends_old_average after_timeout 1000000)
    as (s1 & s2 & E1 & _ & _ & E2 & A & _).
  - reflexivity.
  - vm_compute. discriminate.
  - vm_compute. split; [discriminate | reflexivity].
  - vm_compute. discriminate.
  - lia.
  - vm_compute. reflexivity.
  - exists s1, s2. split; [exact E1|]. split; [exact E2|].
    rewrite A. reflexivity.
Defined.

(** Steady tapping is a fixed point: once the average equals the interval
    between the taps, a further tap at that interval keeps the average and
    runs the scheduler at the tempo of the interval. *)
Theorem tap_steady_interval (s : state) (d : Z) :
  1 <= num_taps s <= 254 -> 1 <= subdiv s <= 9 ->
  tap_interval_avg s = d -> 234375 < d <= 60000000 ->
  0 <= last_tap s -> time_us_64 s = last_tap s + d ->
  last_tap s + d < 2 ^ 64 ->
  exists s',
    tap s = Some s' /\
    tap_interval_avg s' = d /\ tempo s' = 60000000 / d /\
    1 <= tempo s' <= 255 /\ paused s' = false /\
    metronome s' = Some (- (60000000 / tempo s' / subdiv s)) /\
    last_tap s' = time_us_64 s /\ num_taps s' = num_taps s + 1.
Proof.
  intros Hn Hs Ha Hd Hl Ht Hb. rewrite tap_unfold. cbn zeta. fields.
  rewrite (u8_small (num_taps s + 1)) by lia.
  replace (num_taps s + 1 >? 1) with true by (symmetry; apply Z.gtb_lt; lia).
  rewrite Ha, Ht. replace (last_tap s + d - last_tap s) with d by lia.
  rewrite (u64_small d) by lia. rewrite (u64_small (d + d)) by lia.
  replace ((d + d) / 2) with d by (apply Z.div_unique_exact; lia).
  assert (Hq : 1 <= 60000000 / d <= 255).
  { split; [apply Z.div_le_lower_bound; lia|].
    assert (60000000 / d < 256) by (apply Z.div_lt_upper_bound; lia). lia. }
  unfold interval_to_bpm.
  destruct (d =? 0) eqn:E; [apply Z.eqb_eq in E; lia|]. cbn [obind].
  change (60 * 1000 * 1000) with 60000000.
  rewrite u8_small by lia.
  rewrite set_tempo_runs by (fields; lia). cbn [option_map].
  eexists. split; [reflexivity|]. fields.
  split; [reflexivity|]. split; [reflexivity|]. split; [exact Hq|].
  split; [reflexivity|]. split; [|split; reflexivity].
  rewrite timer_delay by lia. reflexivity.
Qed.

Lemma tap_steady_interval_witness :
  exists s',
    tap steady_taps = Some s' /\
    tap_interval_avg s' = 500000 /\ tempo s' = 60000000 / 500000 /\
    1 <= tempo s' <= 255 /\ paused s' = false /\
    metronome s' = Some (- (60000000 / tempo s' / subdiv steady_taps)) /\
    last_tap s' = time_us_64 steady_taps /\
    num_taps s' = num_taps steady_taps + 1.
Proof.
  apply (tap_steady_interval steady_taps 500000).
  - vm_compute. split; discriminate.
  - vm_compute. split; discriminate.
  - reflexivity.
  - lia.
  - vm_compute. discriminate.
  - reflexivity.
  - vm_compute. reflexivity.
Defined.

(** The tap counter is a [uint8_t]: the 256th tap of an unbroken sequence
    wraps it to 0, so that tap only stops the scheduler and records the
    time, like the first tap of a sequence. *)
Theorem tap_counter_wraps (s : state) :
  num_taps s = 255 ->
  exists s',
    tap s = Some s' /\
    num_taps s' = 0 /\ paused s' = true /\ metronome s' = None /\
    tempo s' = tempo s /\ tap_interval_avg s' = tap_interval_avg s /\
    last_tap s' = time_us_64 s.
Proof.
  intros Hn. rewrite tap_unfold. cbn zeta. fields. rewrite Hn.
  change (u8 (255 + 1) >? 1) with false. cbn iota.
  eexists. split; [reflexivity|]. fields. repeat split.
Qed.

Lemma tap_counter_wraps_witness :
  exists s',
    tap many_taps = Some s' /\
    num_taps s' = 0 /\ paused s' = true /\ metronome s' = None /\
    tempo s' = tempo many_taps /\
    tap_interval_avg s' = tap_interval_avg many_taps /\
    last_tap s' = time_us_64 many_taps.
Proof. apply (tap_counter_wraps many_taps). reflexivity. Defined.

(** ** Auto-repeat of the adjustment keys *)

Lemma repeat_decrease_tempo (n : nat) (s : state) :
  tempo_change s = Some CbDecreaseTempo -> 0 <= tempo s <= 255 ->
  exists s',
    repeat_proc n tempo_change_fire s = Some s' /\
    tempo s' = (tempo s + Z.of_nat n) mod 256 /\
    tempo_change s' = Some CbDecreaseTempo /\
    long_pressed_release_lock s' = long_pressed_release_lock s.
Proof.
  revert s. induction n as [|n IH]; intros s C Ht.
  - exists s. split; [reflexivity|].
    split; [rewrite Z.add_0_r; symmetry; apply Z.mod_small; lia|]. auto.
  - cbn [repeat_proc]. unfold andthen, tempo_change_fire at 1.
    rewrite C, decrease_tempo_unfold.
    replace (tempo s <? 256) with true by (symmetry; apply Z.ltb_lt; lia).
    pose proof (u8_range (tempo s + 1)) as Hr.
    destruct (IH (with_recalc_interval true
                    (with_tempo (u8 (tempo s + 1)) s)))
      as (s' & E & T & C' & L); [exact C | fields; lia |].
    exists s'. split; [exact E|]. fields_in T. fields_in L.
    split; [|auto]. rewrite T. unfold u8. change (2 ^ 8) with 256.
    rewrite Zplus_mod_idemp_l. f_equal. lia.
Qed.

Lemma repeat_increase_tempo (n : nat) (s : state) :
  tempo_change s = Some CbIncreaseTempo -> 0 <= tempo s ->
  exists s',
    repeat_proc n tempo_change_fire s = Some s' /\
    tempo s' = Z.max 0 (tempo s - Z.of_nat n) /\
    tempo_change s' = Some CbIncreaseTempo /\
    long_pressed_release_lock s' = long_pressed_release_lock s.
Proof.
  revert s. induction n as [|n IH]; intros s C Ht.
  - exists s. split; [reflexivity|]. split; [lia|]. auto.
  - cbn [repeat_proc]. unfold andthen, tempo_change_fire at 1.
    rewrite C, increase_tempo_unfold.
    destruct (tempo s >? 0) eqn:G.
    + apply Z.gtb_lt in G.
      destruct (IH (with_recalc_interval true (with_tempo (tempo s - 1) s)))
        as (s' & E & T & C' & L); [exact C | fields; lia |].
      exists s'. split; [exact E|]. fields_in T. fields_in L.
      split; [lia | auto].
    + rewrite Z.gtb_ltb in G. apply Z.ltb_ge in G.
      destruct (IH (with_recalc_interval true s))
        as (s' & E & T & C' & L); [exact C | fields; lia |].
      exists s'. split; [exact E|]. fields_in T. fields_in L.
      split; [lia | auto].
Qed.

(** Holding key 12 arms the 50 ms timer with [decrease_tempo], which
    counts up modulo 256, through 0; holding key 14 arms it with
    [increase_tempo], which counts down and stays at 0.  The release that
    follows is processed: it cancels the timer and blinks red. *)
Theorem hold_auto_repeat (s : state) (n : nat) :
  0 <= tempo s <= 255 ->
  (exists s',
     (key_long_pressed 12 ;; repeat_proc n tempo_change_fire) s = Some s' /\
     tempo s' = (tempo s + Z.of_nat n) mod 256 /\
     tempo_change s' = Some CbDecreaseTempo /\
     key_released 12 s' =
       Some (with_trace (trace s' ++ [OutBlink BLINK_DURATION_MS RED])
               (with_tempo_change None s'))) /\
  (exists s',
     (key_long_pressed 14 ;; repeat_proc n tempo_change_fire) s = Some s' /\
     tempo s' = Z.max 0 (tempo s - Z.of_nat n) /\
     tempo_change s' = Some CbIncreaseTempo /\
     key_released 14 s' =
       Some (with_trace (trace s' ++ [OutBlink BLINK_DURATION_MS RED])
               (with_tempo_change None s'))).
Proof.
  intros Ht. split.
  - set (s0 := with_long_pressed_release_lock false
                 (with_tempo_change (Some CbDecreaseTempo)
                    (with_tempo_change None
                       (with_long_pressed_release_lock true s)))).
    destruct (repeat_decrease_tempo n s0 eq_refl Ht) as (s' & E & T & C & L).
    exists s'. split; [exact E|]. split; [exact T|]. split; [exact C|].
    unfold key_released. rewrite L. reflexivity.
  - set (s0 := with_long_pressed_release_lock false
                 (with_tempo_change (Some CbIncreaseTempo)
                    (with_tempo_change None
                       (with_long_pressed_release_lock true s)))).
    destruct (repeat_increase_tempo n s0 eq_refl (proj1 Ht))
      as (s' & E & T & C & L).
    exists s'. split; [exact E|]. split; [exact T|]. split; [exact C|].
    unfold key_released. rewrite L. reflexivity.
Qed.

Lemma hold_auto_repeat_witness :
  (exists s',
     (key_long_pressed 12 ;; repeat_proc 200 tempo_change_fire) running_100
       = Some s' /\
     tempo s' = 44) /\
  (exists s',
     (key_long_pressed 14 ;; repeat_proc 200 tempo_change_fire) running_100
       = Some s' /\
     tempo s' = 0).
Proof.
  destruct (hold_auto_repeat running_100 200)
    as [(s1 & E1 & T1 & _) (s2 & E2 & T2 & _)];
    [vm_compute; split; discriminate|].
  split; [exists s1 | exists s2]; (split; [assumption|]).
  - rewrite T1. reflexivity.
  - rewrite T2. reflexivity.
Defined.

(** ** Power monitor and pause *)

(** On a state of the invariant, with the clock at or past the last key
    press, [inactive_check] calls [xosc_dormant()] exactly when the beat
    timer is cancelled and more than ten minutes have passed since the
    last key press; it never does while the metronome is ticking. *)
Theorem inactive_check_requests_dormant (s : state) :
  firmware_inv s -> 0 <= last_press s <= time_us_64 s ->
  time_us_64 s < 2 ^ 64 ->
  (inactive_check s = true <->
   metronome s = None /\ 600000000 < time_us_64 s - last_press s).
Proof.
  intros [_ _ _ _ _ _ Hm] Hl Hb. unfold inactive_check, INACTIVE_TIMEOUT.
  rewrite u64_small by lia. change (10 * 60 * 1000 * 1000) with 600000000.
  rewrite andb_true_iff, Z.gtb_lt.
  destruct Hm as [(M & P) | (d & M & P & _)]; rewrite M, P.
  - split; intros [_ G]; auto.
  - split; intros [C _]; discriminate.
Qed.

Lemma inactive_check_requests_dormant_witness :
  inactive_check (with_time_us_64 700000000 fresh) = true /\
  inactive_check (with_time_us_64 700000000 running_100) = false.
Proof.
  split.
  - apply (proj2 (inactive_check_requests_dormant
                    (with_time_us_64 700000000 fresh)
                    (firmware_inv_boot [] 700000000 false)
                    ltac:(vm_compute; split; discriminate) eq_refl)).
    split; [reflexivity | reflexivity].
  - reflexivity.
Defined.

(** [toggle_pause] on a running metronome stops it, and a second call
    starts it again at the same tempo, from tick 0. *)
Theorem toggle_pause_round_trip (s : state) :
  paused s = false -> 1 <= tempo s <= 255 -> 1 <= subdiv s <= 9 ->
  exists s1 s2,
    toggle_pause s = Some s1 /\
    paused s1 = true /\ metronome s1 = None /\ tempo s1 = tempo s /\
    toggle_pause s1 = Some s2 /\
    paused s2 = false /\ tempo s2 = tempo s /\ ticks s2 = 0 /\
    metronome s2 = Some (- (60000000 / tempo s / subdiv s)).
Proof.
  intros Hp Ht Hd.
  set (s1 := stopped (with_paused true s)).
  assert (E1 : toggle_pause s = Some s1).
  { unfold toggle_pause, andthen, modify. fields. rewrite Hp. reflexivity. }
  assert (E2 : toggle_pause s1 =
               Some (started (tempo s) (with_paused false s1))).
  { unfold toggle_pause, andthen, modify. subst s1. fields. cbn [negb].
    replace (tempo s >? 0) with true by (symmetry; apply Z.gtb_lt; lia).
    cbn [when]. apply set_tempo_runs; [lia | fields; lia]. }
  exists s1. eexists. split; [exact E1|].
  split; [reflexivity|]. split; [reflexivity|]. split; [reflexivity|].
  split; [exact E2|]. unfold s1. fields.
  split; [reflexivity|]. split; [reflexivity|]. split; [reflexivity|].
  rewrite timer_delay by lia. reflexivity.
Qed.

Lemma toggle_pause_round_trip_witness :
  exists s1 s2,
    toggle_pause running_100 = Some s1 /\
    paused s1 = true /\ metronome s1 = None /\
    tempo s1 = tempo running_100 /\
    toggle_pause s1 = Some s2 /\
    paused s2 = false /\ tempo s2 = tempo running_100 /\ ticks s2 = 0 /\
    metronome s2 =
      Some (- (60000000 / tempo running_100 / subdiv running_100)).
Proof.
  apply (toggle_pause_round_trip running_100);
    [reflexivity | vm_compute; split; discriminate
     | vm_compute; split; discriminate].
Defined.

(** With no tempo set, [toggle_pause] clears [paused] and arms nothing:
    the state leaves the invariant, and [inactive_check] no longer calls
    [xosc_dormant()] however long the device stays idle. *)
Theorem toggle_pause_without_tempo (s : state) (t : Z) :
  tempo s = 0 -> paused s = true -> metronome s = None ->
  exists s',
    toggle_pause s = Some s' /\
    paused s' = false /\ metronome s' = None /\
    ~ timer_state s' /\
    inactive_check (with_time_us_64 t s') = false.
Proof.
  intros Ht Hp Hm. unfold toggle_pause, andthen, modify. fields.
  rewrite Hp, Ht. cbn [negb Z.gtb Z.compare when]. unfold skip.
  eexists. split; [reflexivity|]. fields.
  split; [reflexivity|]. split; [exact Hm|]. split; [|reflexivity].
  unfold timer_state. fields.
  intros [(_ & C) | (d & C & _)]; congruence.
Qed.

Lemma toggle_pause_without_tempo_witness :
  exists s',
    toggle_pause fresh = Some s' /\
    paused s' = false /\ metronome s' = None /\
    ~ timer_state s' /\
    inactive_check (with_time_us_64 700000000 s') = false.
Proof.
  apply (toggle_pause_without_tempo fresh 700000000); reflexivity.
Defined.

(** ** Startup and every run *)

(** Whatever bytes the flash page holds, [main] leaves four entries in each
    preset array, every tempo in 1..255, every subdivision in 1..10, every
    accent 0 or 1, with the metronome stopped and no tempo set. *)
Theorem main_init_presets_valid (page : list Z) (now : Z) (sw : bool) :
  bytes page ->
  exists s0,
    main_init page now sw = Some s0 /\ valid_presets s0 /\
    tempo s0 = 0 /\ subdiv s0 = 1 /\ accent s0 = true /\
    paused s0 = true /\ metronome s0 = None.
Proof.
  intros Hb. rewrite main_init_cases. eexists. split; [reflexivity|].
  split.
  - refine (inv_presets _ (firmware_inv_main_init page now sw _ Hb _)).
    apply main_init_cases.
  - destruct (invalid_data (flash_byte page)); repeat split.
Qed.

Lemma main_init_presets_valid_witness :
  exists s0,
    main_init page_saved 0 false = Some s0 /\ valid_presets s0 /\
    tempo s0 = 0 /\ subdiv s0 = 1 /\ accent s0 = true /\
    paused s0 = true /\ metronome s0 = None.
Proof.
  exact (main_init_presets_valid page_saved 0 false bytes_page_saved).
Defined.

(** From startup on any page and through every sequence of key events,
    timer callbacks and clock readings that runs: the tempo stays in
    0..255, the subdivision in 1..9, the presets within the validated
    ranges, and the beat timer is either cancelled with [paused] set or
    armed with [paused] clear, a negative delay of 26143 to 60000000
    microseconds and the tick counter below the subdivision. *)
Theorem firmware_invariant
  (page : list Z) (now : Z) (sw : bool) (es : list event) (s0 s : state) :
  bytes page ->
  main_init page now sw = Some s0 ->
  run es s0 = Some s ->
  firmware_inv s.
Proof.
  intros Hb H0 Hr.
  exact (keeps_run es s0 s (firmware_inv_main_init page now sw s0 Hb H0) Hr).
Qed.

Lemma firmware_invariant_witness :
  bytes page_saved /\
  exists s0 s,
    main_init page_saved 0 false = Some s0 /\
    run session s0 = Some s /\
    tempo s = 121 /\ subdiv s = 3 /\
    firmware_inv s.
Proof.
  split; [exact bytes_page_saved|].
  exists (loaded page_saved 0 false),
         (after (run session) (loaded page_saved 0 false)).
  split; [reflexivity|]. split; [vm_compute; reflexivity|].
  split; [reflexivity|]. split; [reflexivity|].
  apply (firmware_invariant page_saved 0 false session
           (loaded page_saved 0 false)).
  - exact bytes_page_saved.
  - reflexivity.
  - vm_compute. reflexivity.
Defined.
